(** * porepy.composite: the variable registry, the substance table and the
      phase composition of a computational domain

    A shallow embedding of [porepy/composite/computational_domain.py] and
    [porepy/composite/substance.py].  Python objects are records that carry
    their identity as a reference; the process-wide state (the objects created
    by the variable-creation routines, the class attribute of [Substance], the
    warnings issued so far) is threaded explicitly, and an exception leaves
    the state as it was when it was raised. *)

From Stdlib Require Import Ascii ZArith.
From stdpp Require Import base strings list gmap.


(** ** Python values, exceptions and the state-and-exception monad *)

Module Py.

(** The identity of an object ([id(obj)]). *)
Definition ref := nat.

(** The exception classes the two files raise, explicitly or through an
    index that is out of range, a class that is still abstract or a name
    that is not bound.  An exception is known by its class; its message is
    left out. *)
Inductive exn :=
  KeyError | ValueError | RuntimeError | IndexError | TypeError | NameError.

Inductive outcome (A : Type) :=
| Return (a : A)
| Raise (e : exn).
Arguments Return {A} a.
Arguments Raise {A} e.

(** A computation over a state of type [S]: the state that comes out is the
    one in force when the computation returned or raised. *)
Definition M (S A : Type) : Type := S -> outcome A * S.

Definition ret {S A} (a : A) : M S A := fun s => (Return a, s).

Definition bind {S A B} (c : M S A) (k : A -> M S B) : M S B :=
  fun s => match c s with
           | (Return a, s') => k a s'
           | (Raise e, s') => (Raise e, s')
           end.

Definition raise {S A} (e : exn) : M S A := fun s => (Raise e, s).

Definition get {S} : M S S := fun s => (Return s, s).

Definition modify {S} (f : S -> S) : M S unit := fun s => (Return tt, f s).

(** [l[i]] on a Python list. *)
Definition index {S A} (l : list A) (i : nat) : M S A :=
  match l !! i with
  | Some x => ret x
  | None => raise IndexError
  end.

(** [for x in l: body x]. *)
Fixpoint for_each {S A} (l : list A) (body : A -> M S unit) : M S unit :=
  match l with
  | [] => ret tt
  | x :: l' => bind (body x) (fun _ => for_each l' body)
  end.

(** [s.split(sep)] for a separator of one character: the pieces between
    the separators, one more than there are separators. *)
Fixpoint split (sep : Ascii.ascii) (s : string) : list string :=
  match s with
  | EmptyString => [EmptyString]
  | String c s' =>
      if decide (c = sep) then EmptyString :: split sep s'
      else match split sep s' with
           | [] => [String c EmptyString]
           | t :: ts => String c t :: ts
           end
  end.

(** [c in s] for a character and a string. *)
Fixpoint occurs (c : Ascii.ascii) (s : string) : bool :=
  match s with
  | EmptyString => false
  | String c' s' => if decide (c' = c) then true else occurs c s'
  end.

End Py.

Import Py.

Declare Scope py_scope.
Delimit Scope py_scope with py.
Notation "'let*' x ':=' c 'in' k" := (bind c (fun x => k))
  (at level 10, x name, c at level 100, k at level 200) : py_scope.
Open Scope py_scope.

(** ** [_composite_utils]: the naming table and the creation routines *)

(** The entries of [COMPUTATIONAL_VARIABLES] the two files read.  The table
    is static configuration; its values are left open. *)
Class Naming := {
  mortar_prefix : string;
  component_overall_fraction : string;
  component_fraction_in_phase : string
}.

(** [Optional[Dict[str, int]]]: DOFs per grid element kind, or [None]. *)
Definition DofInfo := option (gmap string Z).

(** The default [{"cells": 1}]. *)
Definition cells1 : DofInfo := Some {[ "cells" := 1%Z ]}.

Inductive scope := Subdomain | Mortar.

Global Instance scope_eq_dec : EqDecision scope.
Proof. solve_decision. Defined.

(** What the registry needs to see of a [pp.ad.MergedVariable]. *)
Record MergedVariable := {
  var_name : string;
  var_dof : DofInfo;
  var_scope : scope
}.

(** A grid is an opaque handle. *)
Definition Grid := ref.

(** Modelled from the spec: the domain graph [pp.GridBucket], an object with
    an identity whose [get_grids()] yields its subregions. *)
Record GridBucket := {
  gb_ref : ref;
  get_grids : list Grid
}.

(** The state shared by the whole process. *)
Record process := {
  (** every variable object created so far; a reference is its position *)
  heap : list MergedVariable;
  (** [Substance.__substance_instances] *)
  substance_instances : gmap ref (list string);
  (** the messages passed to [warnings.warn], oldest first *)
  warned : list string
}.

Definition alloc (v : MergedVariable) (p : process) : process :=
  {| heap := heap p ++ [v];
     substance_instances := substance_instances p;
     warned := warned p |}.

(** Modelled from the spec: [create_merged_variable(gb, dof_info, name)] of
    [_composite_utils], the subregion-variable creation routine; it returns
    the handle of a new variable scoped to the subregions. *)
Definition create_merged_variable
    (g : GridBucket) (dof_info : DofInfo) (variable_name : string) : M process ref :=
  let* p := get in
  let* _ := modify (alloc {| var_name := variable_name; var_dof := dof_info;
                             var_scope := Subdomain |}) in
  ret (length (heap p)).

(** Modelled from the spec: [create_merged_mortar_variable(gb, dof_info, name)]
    of [_composite_utils], the interface-variable creation routine; it returns
    the handle of a new variable scoped to the interfaces. *)
Definition create_merged_mortar_variable
    (g : GridBucket) (dof_info : DofInfo) (variable_name : string) : M process ref :=
  let* p := get in
  let* _ := modify (alloc {| var_name := variable_name; var_dof := dof_info;
                             var_scope := Mortar |}) in
  ret (length (heap p)).

(** [warnings.warn(msg)]. *)
Definition warn (msg : string) : M process unit :=
  modify (fun p => {| heap := heap p;
                      substance_instances := substance_instances p;
                      warned := warned p ++ [msg] |}).

(** ** [substance.py] *)

Module Substance.

(** A class derived from [Substance]: its [__name__] and the abstract
    methods it has not overridden yet. *)
Record class := {
  __name__ : string;
  __abstractmethods__ : list string
}.

(** An initialised instance. *)
Record t := {
  __class__ : class;
  gb : GridBucket;
  _omf : ref;
  _mfip : gmap string ref
}.

(** [object.__new__(cls)]: refused for a class that is still abstract.  The
    bare instance it returns has no attribute yet and is known by its
    class. *)
Definition object_new (cls : class) : M process class :=
  match __abstractmethods__ cls with
  | [] => ret cls
  | _ :: _ => raise TypeError
  end.

(** [Substance.__substance_instances.update({k: l})] *)
Definition update_instances (k : ref) (l : list string) (p : process) : process :=
  {| heap := heap p;
     substance_instances := <[k := l]> (substance_instances p);
     warned := warned p |}.

(** [Substance.__new__(cls, gb)] *)
Definition __new__ (cls : class) (g : GridBucket) : M process class :=
  let name := __name__ cls in
  let* p := get in
  let* _ := match substance_instances p !! gb_ref g with
            | Some names =>
                if decide (name ∈ names) then raise RuntimeError else ret tt
            | None => modify (update_instances (gb_ref g) [])
            end in
  (* Substance.__substance_instances[gb].append(name) *)
  let* p := get in
  let* _ := match substance_instances p !! gb_ref g with
            | Some names => modify (update_instances (gb_ref g) (names ++ [name]))
            | None => raise KeyError
            end in
  object_new cls.

Section Names.
Context {N : Naming}.

(** The property [name]; it reads the receiver's class only, as do the
    two names built from it. *)
Definition name (c : class) : string := __name__ c.

Definition overall_fraction_var (c : class) : string :=
  component_overall_fraction +:+ "_" +:+ name c.

Definition fraction_in_phase_var (c : class) (phase_name : string) : string :=
  component_fraction_in_phase +:+ "_" +:+ name c +:+ "_" +:+ phase_name.

(** [Substance.__init__(self, gb)] on the bare instance [self]. *)
Definition __init__ (self : class) (g : GridBucket) : M process t :=
  let* omf := create_merged_variable g cells1 (overall_fraction_var self) in
  ret {| __class__ := self; gb := g; _omf := omf; _mfip := ∅ |}.

(** The call [cls(gb)]: [__new__], then [__init__] on what it returned. *)
Definition construct (cls : class) (g : GridBucket) : M process t :=
  let* self := __new__ cls g in
  __init__ self g.

(** The property [overall_fraction]. *)
Definition overall_fraction (self : t) : ref := _omf self.
End Names.

End Substance.

(** ** The collaborators of the domain *)

Module PhaseField.

(** Modelled from the spec: a phase of [phase.py]; it has a name, records
    the domain it was constructed against, and iterating over it yields its
    substances in order. *)
Record t := {
  phase_ref : ref;
  name : string;
  cd : ref;
  substances : list Substance.t
}.

End PhaseField.

(** Modelled from the spec: the [MaterialSubdomain] of
    [material_subdomain.py], one subregion bound to one solid substance. *)
Record MaterialSubdomain := {
  grid : Grid;
  substance : Substance.t
}.

(** ** [computational_domain.py] *)

Module ComputationalDomain.

(** The attributes of an instance.  [cd_ref] is the identity of the
    instance; of the DOF manager the class only ever drives
    [update_dofs()], so [dof_manager] counts those calls. *)
Record t := {
  cd_ref : ref;
  gb : GridBucket;
  dof_manager : nat;
  _global_ad : gmap string ref;
  _substance_names : gset string;
  _substance_in_phase : gmap string (list string);
  _anticipated_phases : list PhaseField.t;
  _material_subdomains : gmap Grid MaterialSubdomain
}.

(** A method runs on its receiver and on the process. *)
Record state := {
  self : t;
  proc : process
}.

Definition on_self (f : t -> t) : M state unit :=
  modify (fun s => {| self := f (self s); proc := proc s |}).

(** Runs a computation of the process inside a method. *)
Definition on_proc {A} (c : M process A) : M state A :=
  fun s => let '(r, p) := c (proc s) in (r, {| self := self s; proc := p |}).

Definition set_global_ad (m : gmap string ref) (d : t) : t :=
  {| cd_ref := cd_ref d; gb := gb d; dof_manager := dof_manager d;
     _global_ad := m;
     _substance_names := _substance_names d;
     _substance_in_phase := _substance_in_phase d;
     _anticipated_phases := _anticipated_phases d;
     _material_subdomains := _material_subdomains d |}.

Definition set_anticipated_phases (l : list PhaseField.t) (d : t) : t :=
  {| cd_ref := cd_ref d; gb := gb d; dof_manager := dof_manager d;
     _global_ad := _global_ad d;
     _substance_names := _substance_names d;
     _substance_in_phase := _substance_in_phase d;
     _anticipated_phases := l;
     _material_subdomains := _material_subdomains d |}.

Definition set_material_subdomains (m : gmap Grid MaterialSubdomain) (d : t) : t :=
  {| cd_ref := cd_ref d; gb := gb d; dof_manager := dof_manager d;
     _global_ad := _global_ad d;
     _substance_names := _substance_names d;
     _substance_in_phase := _substance_in_phase d;
     _anticipated_phases := _anticipated_phases d;
     _material_subdomains := m |}.

Definition set_composition
    (names : gset string) (in_phase : gmap string (list string)) (d : t) : t :=
  {| cd_ref := cd_ref d; gb := gb d; dof_manager := dof_manager d;
     _global_ad := _global_ad d;
     _substance_names := names;
     _substance_in_phase := in_phase;
     _anticipated_phases := _anticipated_phases d;
     _material_subdomains := _material_subdomains d |}.

(** [self.dof_manager.update_dofs()] *)
Definition update_dofs (d : t) : t :=
  {| cd_ref := cd_ref d; gb := gb d; dof_manager := S (dof_manager d);
     _global_ad := _global_ad d;
     _substance_names := _substance_names d;
     _substance_in_phase := _substance_in_phase d;
     _anticipated_phases := _anticipated_phases d;
     _material_subdomains := _material_subdomains d |}.

Section Registry.
Context {N : Naming}.

(** [ComputationalDomain.__call__(self, variable_name, dof_info)] *)
Definition __call__ (variable_name : string) (dof_info : DofInfo) : M state ref :=
  let* s := get in
  match _global_ad (self s) !! variable_name with
  | Some var => ret var
  | None =>
      let split_name := split "_"%char variable_name in
      let* first := index split_name 0 in
      let* is_mortar :=
        if decide (mortar_prefix = first) then
          (* case: variable on the mortar grids *)
          let* symbol := index split_name 1 in
          ret true
        else
          (* case: variable on subdomains *)
          let* symbol := index split_name 0 in
          ret false in
      let* var :=
        if is_mortar : bool then
          on_proc (create_merged_mortar_variable (gb (self s)) dof_info variable_name)
        else
          on_proc (create_merged_variable (gb (self s)) dof_info variable_name) in
      let* _ := on_self (fun d => set_global_ad (<[variable_name := var]> (_global_ad d)) d) in
      (* update DOFs since a new variable has been created *)
      let* _ := on_self update_dofs in
      ret var
  end.
End Registry.

(** The property [np]. *)
Definition np (d : t) : nat := length (_anticipated_phases d).

(** The property [ns]. *)
Definition ns (d : t) : nat := size (_substance_names d).

(** The property [Phases]: a generator over the phases, in their order. *)
Definition Phases (d : t) : list PhaseField.t := _anticipated_phases d.

(** [assign_material_to_grid(self, grid, substance)] *)
Definition assign_material_to_grid (g : Grid) (sub : Substance.t) : M state unit :=
  let* s := get in
  if decide (g ∈ get_grids (gb (self s))) then
    on_self (fun d => set_material_subdomains
                        (<[g := {| grid := g; substance := sub |}]> (_material_subdomains d)) d)
  else raise KeyError.

(** [is_variable(self, var_name)] *)
Definition is_variable (d : t) (var_name : string) : bool :=
  if decide (var_name ∈ dom (_global_ad d)) then true else false.

(** [_resolve_composition(self)] *)
Definition _resolve_composition : M state unit :=
  let* s := get in
  let '(composition, unique_substances) :=
    foldl (fun '(composition, unique_substances) phase =>
             let '(substances_in_phase, unique_substances) :=
               foldl (fun '(substances_in_phase, unique_substances) sub =>
                        let n := Substance.name (Substance.__class__ sub) in
                        (substances_in_phase ++ [n], {[ n ]} ∪ unique_substances))
                     ([], unique_substances) (PhaseField.substances phase) in
             (<[PhaseField.name phase := substances_in_phase]> composition,
              unique_substances))
          ((∅ : gmap string (list string)), (∅ : gset string)) (Phases (self s)) in
  on_self (set_composition unique_substances composition).

(** The argument of [add_phase]: one phase, or several in a list. *)
Inductive phases_arg :=
| One (phase : PhaseField.t)
| Many (phases : list PhaseField.t).

Definition already_added (phase_name : string) : string :=
  "Phase '" +:+ phase_name +:+ "' has already been added. Skipping...".

(** [typing.TYPE_CHECKING]: [False] whenever the module is run. *)
Definition TYPE_CHECKING : bool := false.

(** The global name [PhaseField] of the module.  Lines 19 to 21 import it
    under [if TYPE_CHECKING:] only, so that looking it up while the module
    runs raises [NameError]. *)
Definition PhaseField_global {S} : M S unit :=
  if TYPE_CHECKING then ret tt else raise NameError.

(** [add_phase(self, phases)].  The test [isinstance(phases, PhaseField)]
    first looks the name [PhaseField] up; were it bound, the test would be
    the case analysis on the argument. *)
Definition add_phase (phases : phases_arg) : M state unit :=
  let* _ := PhaseField_global in
  let phases := match phases with One phase => [phase] | Many phases => phases end in
  let* s := get in
  let old_names : gset string :=
    list_to_set (PhaseField.name <$> _anticipated_phases (self s)) in
  (* check if phase is instantiated on same domain or if it's name is
     already among the present phases *)
  let* _ := for_each phases (fun phase =>
    let* s := get in
    if decide (PhaseField.cd phase ≠ cd_ref (self s)) then raise ValueError
    else if decide (PhaseField.name phase ∈ old_names) then
      on_proc (warn (already_added (PhaseField.name phase)))
    else
      on_self (fun d => set_anticipated_phases (_anticipated_phases d ++ [phase]) d)) in
  _resolve_composition.

End ComputationalDomain.

(** ** Notions used by the statements *)

Import ComputationalDomain.

(** The first underscore-delimited token of a name: [split_name[0]]. *)
Definition first_token (variable_name : string) : string :=
  default "" (head (split "_"%char variable_name)).

Section Notions.
Context {N : Naming}.

(** The state after a variable for [n] was created and registered. *)
Definition with_new_variable (sc : scope) (n : string) (dof : DofInfo) (s : state) : state :=
  {| self := update_dofs
               (set_global_ad (<[n := length (heap (proc s))]> (_global_ad (self s)))
                              (self s));
     proc := alloc {| var_name := n; var_dof := dof; var_scope := sc |} (proc s) |}.

(** A sequence of accessor calls, each run whether the one before it
    returned or raised. *)
Definition calls (l : list (string * DofInfo)) (s : state) : state :=
  foldl (fun s c => (__call__ c.1 c.2 s).2) s l.

End Notions.

(** Every reference the registry holds is to a variable that exists. *)
Definition registry_allocated (d : ComputationalDomain.t) (p : process) : Prop :=
  map_Forall (fun _ v => v < length (heap p)) (_global_ad d).

(** The table after the name of the class was appended under the given
    domain graph. *)
Definition with_name (cls : Substance.class) (g : GridBucket) (p : process) : process :=
  Substance.update_instances (gb_ref g)
    (default [] (substance_instances p !! gb_ref g) ++ [Substance.__name__ cls]) p.

(** The name of the class is in the table under the given domain graph. *)
Definition is_registered (cls : Substance.class) (g : GridBucket) (p : process) : bool :=
  match substance_instances p !! gb_ref g with
  | Some names => bool_decide (Substance.__name__ cls ∈ names)
  | None => false
  end.

(** The names a phase yields when it is iterated over. *)
Definition names_of (phase : PhaseField.t) : list string :=
  (fun sub => Substance.name (Substance.__class__ sub)) <$> PhaseField.substances phase.

(** The stored composition is the one the resolver derives from the phase
    list as it stands: running the resolver changes nothing. *)
Definition up_to_date (s : state) : Prop := (_resolve_composition s).2 = s.

(** The composition [_resolve_composition] builds from a phase list: each
    phase in turn enters its names under its own name, and all the names
    are gathered. *)
Definition composition_of (phases : list PhaseField.t) : gmap string (list string) :=
  foldl (fun composition phase => <[PhaseField.name phase := names_of phase]> composition)
        ∅ phases.

Definition substance_names_of (phases : list PhaseField.t) : gset string :=
  list_to_set (concat (names_of <$> phases)).

(** A sequence of calls of [add_phase], each made whatever the one before
    it did. *)
Definition add_phases (l : list phases_arg) (s : state) : state :=
  foldl (fun s phases => (add_phase phases s).2) s l.

(** The state after the composition was resolved. *)
Definition resolved (s : state) : state :=
  {| self := set_composition (substance_names_of (_anticipated_phases (self s)))
                             (composition_of (_anticipated_phases (self s))) (self s);
     proc := proc s |}.

(** ** Concrete values *)

Definition porepy_names : Naming :=
  {| mortar_prefix := "mortar";
     component_overall_fraction := "zeta";
     component_fraction_in_phase := "chi" |}.

Definition gb0 : GridBucket := {| gb_ref := 0; get_grids := [10; 11] |}.
Definition gb1 : GridBucket := {| gb_ref := 2; get_grids := [12] |}.

Definition p0 : process := {| heap := []; substance_instances := ∅; warned := [] |}.

(** A domain on [gb0] as its attributes are first set: no variable, no
    phase, no composition, no material. *)
Definition d0 : ComputationalDomain.t :=
  {| cd_ref := 1; gb := gb0; dof_manager := 0;
     _global_ad := ∅; _substance_names := ∅; _substance_in_phase := ∅;
     _anticipated_phases := []; _material_subdomains := ∅ |}.

Definition s0 : state := {| self := d0; proc := p0 |}.

Definition Water : Substance.class :=
  {| Substance.__name__ := "Water"; Substance.__abstractmethods__ := [] |}.
Definition Salt : Substance.class :=
  {| Substance.__name__ := "Salt"; Substance.__abstractmethods__ := [] |}.

(** The process after a [Water] was constructed on [gb0]. *)
Definition with_water : process :=
  (Substance.construct (N := porepy_names) Water gb0 p0).2.

(** The state after the accessor was asked for ["zeta_Water"] on [s0]. *)
Definition with_zeta_water : state :=
  (__call__ (N := porepy_names) "zeta_Water" cells1 s0).2.

Definition substance_on_gb0 (cls : Substance.class) (omf : ref) : Substance.t :=
  {| Substance.__class__ := cls; Substance.gb := gb0;
     Substance._omf := omf; Substance._mfip := ∅ |}.

Definition Liquid : PhaseField.t :=
  {| PhaseField.phase_ref := 5; PhaseField.name := "Liquid"; PhaseField.cd := 1;
     PhaseField.substances := [substance_on_gb0 Water 0; substance_on_gb0 Salt 1] |}.
Definition Gas : PhaseField.t :=
  {| PhaseField.phase_ref := 6; PhaseField.name := "Gas"; PhaseField.cd := 1;
     PhaseField.substances := [substance_on_gb0 Water 0] |}.
(** [d0] with the two phases listed and the composition not resolved yet. *)
Definition two_phases : state :=
  {| self := set_anticipated_phases [Liquid; Gas] d0; proc := p0 |}.

(** ** [substance.py], continued: the fractions in the phases *)

Module Fractions.

(** [fraction_in_phase] runs on its receiver, whose cache it fills, and on
    the process. *)
Record state := {
  receiver : Substance.t;
  world : process
}.

Definition set_mfip (m : gmap string ref) (sub : Substance.t) : Substance.t :=
  {| Substance.__class__ := Substance.__class__ sub;
     Substance.gb := Substance.gb sub;
     Substance._omf := Substance._omf sub;
     Substance._mfip := m |}.

(** Runs a computation of the process inside a method of a substance. *)
Definition in_world {A} (c : M process A) : M state A :=
  fun s => let '(r, p) := c (world s) in (r, {| receiver := receiver s; world := p |}).

Section Fraction.
Context {N : Naming}.

(** [Substance.fraction_in_phase(self, phase_name)] *)
Definition fraction_in_phase (phase_name : string) : M state ref :=
  let* s := get in
  (* if MergedVariable for this phase already exists, return it *)
  match Substance._mfip (receiver s) !! phase_name with
  | Some v => ret v
  | None =>
      (* else create new one *)
      let* mfip :=
        in_world (create_merged_variable (Substance.gb (receiver s)) cells1
                    (Substance.fraction_in_phase_var (Substance.__class__ (receiver s))
                                                     phase_name)) in
      let* _ := modify (fun s =>
                  {| receiver := set_mfip (<[phase_name := mfip]>
                                             (Substance._mfip (receiver s))) (receiver s);
                     world := world s |}) in
      ret mfip
  end.

(** A sequence of requests, one after the other. *)
Definition requests (l : list string) (s : state) : state :=
  foldl (fun s phase_name => (fraction_in_phase phase_name s).2) s l.

(** The state after the variable for a phase was created and cached. *)
Definition with_fraction (phase_name : string) (s : state) : state :=
  {| receiver := set_mfip (<[phase_name := length (heap (world s))]>
                             (Substance._mfip (receiver s))) (receiver s);
     world := alloc {| var_name := Substance.fraction_in_phase_var
                                     (Substance.__class__ (receiver s)) phase_name;
                       var_dof := cells1; var_scope := Subdomain |} (world s) |}.

End Fraction.

(** The variables a substance holds exist, and no two of them are the same:
    the cached ones differ from the overall fraction and from each other. *)
Definition sound (s : state) : Prop :=
  Substance._omf (receiver s) < length (heap (world s))
  ∧ ∀ phase_name v, Substance._mfip (receiver s) !! phase_name = Some v →
      v < length (heap (world s))
      ∧ v ≠ Substance._omf (receiver s)
      ∧ ∀ other, Substance._mfip (receiver s) !! other = Some v → other = phase_name.

End Fractions.

(** ** [computational_domain.py], continued: the iterator *)

Section Iterator.
Variable data : Type.

(** [ComputationalDomain.__iter__(self)].  The pairs are what
    [for grid, data in self.gb] yields, in that order; the result is what the
    generator yields, and the [KeyError] it ends with when a grid has no
    material. *)
Fixpoint __iter__ (d : ComputationalDomain.t) (pairs : list (Grid * data))
    : list (Grid * data * MaterialSubdomain) * option exn :=
  match pairs with
  | [] => ([], None)
  | (g, dat) :: pairs' =>
      match _material_subdomains d !! g with
      | Some m =>
          let '(yielded, e) := __iter__ d pairs' in ((g, dat, m) :: yielded, e)
      | None => ([], Some KeyError)
      end
  end.

End Iterator.

(** ** Further notions used by the statements *)

Section More_notions.
Context {N : Naming}.

(** Every entry of the registry refers to a variable that exists, bears the
    name it is registered under, and has the scope its first token asks
    for. *)
Definition registry_sound (s : state) : Prop :=
  ∀ n v, _global_ad (self s) !! n = Some v →
    ∃ dof, heap (proc s) !! v
           = Some {| var_name := n; var_dof := dof;
                     var_scope := if decide (first_token n = mortar_prefix)
                                  then Mortar else Subdomain |}.

(** The states a domain can be in: it starts without phases and without
    composition, and is then driven through its methods. *)
Inductive reachable : state → Prop :=
| reach_start s :
    _anticipated_phases (self s) = [] →
    _substance_names (self s) = ∅ → _substance_in_phase (self s) = ∅ →
    reachable s
| reach_call n dof s :
    reachable s → reachable (__call__ n dof s).2
| reach_assign g sub s :
    reachable s → reachable (assign_material_to_grid g sub s).2
| reach_add_phase phases s :
    reachable s → reachable (add_phase phases s).2
| reach_resolve s :
    reachable s → reachable (_resolve_composition s).2.

End More_notions.

(** No list of the substance table names a class twice. *)
Definition table_distinct (p : process) : Prop :=
  map_Forall (fun _ names => NoDup names) (substance_instances p).

(** Every grid of the grid bucket has a material. *)
Definition materials_total (d : ComputationalDomain.t) : Prop :=
  ∀ g, g ∈ get_grids (gb d) → is_Some (_material_subdomains d !! g).

(** Every material subdomain is kept under the grid it is bound to. *)
Definition materials_keyed (d : ComputationalDomain.t) : Prop :=
  map_Forall (fun g m => grid m = g) (_material_subdomains d).

(** ** Further concrete values *)

(** The class [Substance] itself, with its abstract methods. *)
Definition Substance_class : Substance.class :=
  {| Substance.__name__ := "Substance";
     Substance.__abstractmethods__ :=
       ["Fick_diffusivity"; "molar_density"; "molar_mass"; "thermal_conductivity"] |}.

(** A [Water] constructed on [gb0] in the empty process, with the process it
    leaves. *)
Definition fresh_water : Fractions.state :=
  {| Fractions.receiver := substance_on_gb0 Water 0;
     Fractions.world := with_water |}.

(** [d0] with the default material of its two grids in place. *)
Definition d0_with_materials : ComputationalDomain.t :=
  set_material_subdomains
    (<[10 := {| grid := 10; substance := substance_on_gb0 Salt 0 |}]>
       (<[11 := {| grid := 11; substance := substance_on_gb0 Salt 0 |}]> ∅)) d0.

(** * Properties *)


(** ** Splitting a name at its underscores *)

Lemma split_cons sep s : ∃ first rest, split sep s = first :: rest.
Proof.
  induction s as [|c s [first [rest IH]]]; simpl; [by eauto|].
  case_decide; [by eauto|]. rewrite IH. by eauto.
Qed.

Lemma split_no_separator sep s : occurs sep s = false → split sep s = [s].
Proof.
  induction s as [|c s IH]; simpl; [done|].
  case_decide; [done|]. intros Hs. by rewrite (IH Hs).
Qed.

Lemma split_separator sep s :
  occurs sep s = true → ∃ first second rest, split sep s = first :: second :: rest.
Proof.
  induction s as [|c s IH]; simpl; [done|].
  case_decide.
  - intros _. destruct (split_cons sep s) as (first & rest & ->). by eauto.
  - intros Hs. destruct (IH Hs) as (first & second & rest & ->). by eauto.
Qed.

Lemma occurs_app sep a b : occurs sep (a +:+ String sep b) = true.
Proof.
  induction a as [|c a IH]; simpl.
  - by rewrite decide_True.
  - by case_decide.
Qed.

Lemma first_token_no_underscore n : occurs "_"%char n = false → first_token n = n.
Proof. intros Hn. unfold first_token. by rewrite split_no_separator. Qed.

(** ** The registry accessor, case by case *)

Section Registry_facts.
Context {N : Naming}.

Lemma call_registered n dof s v :
  _global_ad (self s) !! n = Some v → __call__ n dof s = (Return v, s).
Proof. intros Hn. unfold __call__, bind, get, ret. by rewrite Hn. Qed.

Lemma call_subdomain n dof s :
  _global_ad (self s) !! n = None → first_token n ≠ mortar_prefix →
  __call__ n dof s = (Return (length (heap (proc s))), with_new_variable Subdomain n dof s).
Proof.
  intros Hn Hfirst. unfold first_token in Hfirst.
  destruct (split_cons "_"%char n) as (first & rest & Hsplit).
  rewrite Hsplit in Hfirst. simpl in Hfirst.
  unfold __call__, bind, get. rewrite Hn, Hsplit. simpl.
  rewrite decide_False by congruence. done.
Qed.

Lemma call_mortar n dof s :
  _global_ad (self s) !! n = None → first_token n = mortar_prefix →
  occurs "_"%char n = true →
  __call__ n dof s = (Return (length (heap (proc s))), with_new_variable Mortar n dof s).
Proof.
  intros Hn Hfirst Hsep. unfold first_token in Hfirst.
  destruct (split_separator _ _ Hsep) as (first & second & rest & Hsplit).
  rewrite Hsplit in Hfirst. simpl in Hfirst.
  unfold __call__, bind, get. rewrite Hn, Hsplit. simpl.
  rewrite decide_True by congruence. done.
Qed.

Lemma call_bare_prefix n dof s :
  _global_ad (self s) !! n = None → first_token n = mortar_prefix →
  occurs "_"%char n = false →
  __call__ n dof s = (Raise IndexError, s).
Proof.
  intros Hn Hfirst Hsep. unfold first_token in Hfirst.
  rewrite (split_no_separator _ _ Hsep) in Hfirst. simpl in Hfirst.
  unfold __call__, bind, get. rewrite Hn, (split_no_separator _ _ Hsep). simpl.
  rewrite decide_True by congruence. done.
Qed.

(** Whatever a call does, an entry of the registry stays what it was. *)
Lemma call_keeps_entry m dof s n v :
  _global_ad (self s) !! n = Some v →
  _global_ad (self (__call__ m dof s).2) !! n = Some v.
Proof.
  intros Hn.
  destruct (_global_ad (self s) !! m) as [w|] eqn:Hm.
  { by rewrite (call_registered _ _ _ _ Hm). }
  destruct (decide (first_token m = mortar_prefix)) as [Hfirst|Hfirst].
  - destruct (occurs "_"%char m) eqn:Hsep.
    + rewrite call_mortar by done. simpl.
      rewrite lookup_insert_ne; [done|congruence].
    + by rewrite call_bare_prefix.
  - rewrite call_subdomain by done. simpl.
    rewrite lookup_insert_ne; [done|congruence].
Qed.

(** A call that returns leaves its name registered to what it returned. *)
Lemma call_returns_entry n dof s v s' :
  __call__ n dof s = (Return v, s') → _global_ad (self s') !! n = Some v.
Proof.
  destruct (_global_ad (self s) !! n) as [w|] eqn:Hn.
  { rewrite (call_registered _ _ _ _ Hn). by intros [= <- <-]. }
  destruct (decide (first_token n = mortar_prefix)) as [Hfirst|Hfirst].
  - destruct (occurs "_"%char n) eqn:Hsep.
    + rewrite call_mortar by done. intros [= <- <-]. simpl.
      by rewrite lookup_insert_eq.
    + by rewrite call_bare_prefix.
  - rewrite call_subdomain by done. intros [= <- <-]. simpl.
    by rewrite lookup_insert_eq.
Qed.

Lemma calls_keep_entry l s n v :
  _global_ad (self s) !! n = Some v → _global_ad (self (calls l s)) !! n = Some v.
Proof.
  revert s. induction l as [|c l IH]; intros s Hn; [done|].
  simpl. apply IH. by apply call_keeps_entry.
Qed.

End Registry_facts.

(** ** The registry accessor: one instance per name *)

Section Registry_claims.
Context {N : Naming}.

(** C2.  Once the accessor has returned a variable for a name, a later
    call with that name returns the very same reference and changes
    nothing (no second variable is created), whatever accessor calls were
    made in between, with whatever names and DOF information, and whether
    they returned or raised. *)
Theorem registry_returns_same_instance
    (n : string) (dof dof' : DofInfo) (between : list (string * DofInfo))
    (s s1 : state) (v : ref) :
  __call__ n dof s = (Return v, s1) →
  __call__ n dof' (calls between s1) = (Return v, calls between s1).
Proof.
  intros Hfirst. apply call_registered, calls_keep_entry.
  by apply (call_returns_entry n dof s).
Qed.

(** C6.  For a name that is not registered yet: if its first token is the
    mortar prefix, whatever variable the accessor returns is the one just
    made by the mortar creation routine, scoped to the interfaces, and the
    accessor does return one as soon as the name has a second token; if its
    first token is anything else, the accessor returns the variable just made
    by the subdomain creation routine, scoped to the subregions. *)
Theorem scope_follows_first_token (n : string) (dof : DofInfo) (s : state) :
  _global_ad (self s) !! n = None →
  (first_token n = mortar_prefix →
     (∀ v s', __call__ n dof s = (Return v, s') →
        create_merged_mortar_variable (gb (self s)) dof n (proc s) = (Return v, proc s')
        ∧ heap (proc s') !! v
          = Some {| var_name := n; var_dof := dof; var_scope := Mortar |})
     ∧ (occurs "_"%char n = true → ∃ v s', __call__ n dof s = (Return v, s')))
  ∧ (first_token n ≠ mortar_prefix →
     ∃ v s', __call__ n dof s = (Return v, s')
        ∧ create_merged_variable (gb (self s)) dof n (proc s) = (Return v, proc s')
        ∧ heap (proc s') !! v
          = Some {| var_name := n; var_dof := dof; var_scope := Subdomain |}).
Proof.
  intros Hn. split.
  - intros Hfirst. split.
    + intros v s'. destruct (occurs "_"%char n) eqn:Hsep.
      * rewrite call_mortar by done. intros [= <- <-]. split; [done|].
        simpl. by apply list_lookup_middle.
      * by rewrite call_bare_prefix.
    + intros Hsep. eexists _, _. by apply call_mortar.
  - intros Hfirst. eexists _, _. split; [by apply call_subdomain|].
    split; [done|]. simpl. by apply list_lookup_middle.
Qed.

(** C7, at the failing input.  When the mortar prefix has no underscore,
    asking for the variable whose name is the prefix itself raises
    [IndexError] at [split_name[1]] and leaves the state as it was: no
    variable is created. *)
Theorem bare_mortar_prefix_raises (dof : DofInfo) (s : state) :
  occurs "_"%char mortar_prefix = false →
  _global_ad (self s) !! mortar_prefix = None →
  __call__ mortar_prefix dof s = (Raise IndexError, s).
Proof.
  intros Hsep Hn. apply call_bare_prefix; [done| |done].
  by apply first_token_no_underscore.
Qed.

(** Every other name without an underscore is served as C7 says: the whole
    string is the first token, no error is raised, and the variable is made
    by the subdomain creation routine. *)
Lemma no_underscore_is_subdomain (n : string) (dof : DofInfo) (s : state) :
  occurs "_"%char n = false → n ≠ mortar_prefix →
  _global_ad (self s) !! n = None →
  first_token n = n
  ∧ __call__ n dof s
    = (Return (length (heap (proc s))), with_new_variable Subdomain n dof s).
Proof.
  intros Hsep Hne Hn. pose proof (first_token_no_underscore n Hsep) as Hfirst.
  split; [done|]. apply call_subdomain; [done|]. by rewrite Hfirst.
Qed.

End Registry_claims.

Lemma registry_returns_same_instance_witness :
  __call__ (N := porepy_names) "p" cells1 s0
  = (Return 0, (__call__ (N := porepy_names) "p" cells1 s0).2)
  ∧ __call__ (N := porepy_names) "p" None
      (calls (N := porepy_names) [("mortar_T", cells1); ("mortar", None); ("s_w", cells1)]
             (__call__ (N := porepy_names) "p" cells1 s0).2)
    = (Return 0,
       calls (N := porepy_names) [("mortar_T", cells1); ("mortar", None); ("s_w", cells1)]
             (__call__ (N := porepy_names) "p" cells1 s0).2).
Proof.
  split; [vm_compute; reflexivity|].
  apply (registry_returns_same_instance (N := porepy_names) "p" cells1 None _ s0).
  vm_compute; reflexivity.
Defined.

Lemma scope_follows_first_token_witness :
  _global_ad (self s0) !! "mortar_pressure" = None
  ∧ ∃ v s', __call__ (N := porepy_names) "mortar_pressure" cells1 s0 = (Return v, s').
Proof.
  split; [reflexivity|].
  apply (scope_follows_first_token (N := porepy_names) "mortar_pressure" cells1 s0);
    reflexivity.
Defined.

Lemma bare_mortar_prefix_raises_witness :
  __call__ (N := porepy_names) "mortar" cells1 s0 = (Raise IndexError, s0).
Proof.
  apply (bare_mortar_prefix_raises (N := porepy_names) cells1 s0); reflexivity.
Defined.

(** ** Material assignment *)

(** C8.  [assign_material_to_grid] raises [KeyError] exactly when the grid
    is not among the grids of the domain's grid bucket, and it either raises
    that or returns.  When it raises, the state is the one it started from.
    When it returns, the entry of the grid is the new material subdomain,
    every other entry is what it was, and so is everything else. *)
Theorem assign_material_to_grid_spec (g : Grid) (sub : Substance.t) (s : state) :
  let r := assign_material_to_grid g sub s in
  (r.1 = Raise KeyError ↔ g ∉ get_grids (gb (self s)))
  ∧ (r.1 = Raise KeyError ∨ r.1 = Return tt)
  ∧ (r.1 = Raise KeyError → r.2 = s)
  ∧ (r.1 = Return tt →
       _material_subdomains (self r.2) !! g = Some {| grid := g; substance := sub |}
       ∧ (∀ g', g' ≠ g →
            _material_subdomains (self r.2) !! g' = _material_subdomains (self s) !! g')
       ∧ set_material_subdomains (_material_subdomains (self s)) (self r.2) = self s
       ∧ proc r.2 = proc s).
Proof.
  unfold assign_material_to_grid, bind, get. simpl.
  destruct (decide (g ∈ get_grids (gb (self s)))) as [Hin|Hout]; simpl.
  - split; [split; [done|by intros []]|]. split; [by right|].
    split; [done|]. intros _. rewrite lookup_insert_eq.
    split; [done|]. split; [by intros g' Hg'; rewrite lookup_insert_ne|].
    by destruct s as [[] ?].
  - split; [done|]. split; [by left|]. split; done.
Qed.

(** ** Substances: one name per domain instance *)

Section Substance_claims.
Context {N : Naming}.

Lemma new_unfold (cls : Substance.class) (g : GridBucket) (p : process) :
  Substance.__new__ cls g p =
    if is_registered cls g p then (Raise RuntimeError, p)
    else match Substance.__abstractmethods__ cls with
         | [] => (Return cls, with_name cls g p)
         | _ :: _ => (Raise TypeError, with_name cls g p)
         end.
Proof.
  unfold Substance.__new__, is_registered, with_name, bind, get.
  destruct (substance_instances p !! gb_ref g) as [names|] eqn:Hg; simpl.
  - case_bool_decide as Hin.
    + by rewrite decide_True.
    + rewrite decide_False by done. simpl. rewrite Hg. simpl.
      unfold Substance.object_new. by destruct (Substance.__abstractmethods__ cls).
  - rewrite lookup_insert_eq. simpl.
    unfold Substance.object_new, Substance.update_instances. simpl.
    rewrite insert_insert_eq.
    by destruct (Substance.__abstractmethods__ cls).
Qed.

Lemma construct_unfold (cls : Substance.class) (g : GridBucket) (p : process) :
  Substance.construct cls g p =
    if is_registered cls g p then (Raise RuntimeError, p)
    else match Substance.__abstractmethods__ cls with
         | [] => (Return {| Substance.__class__ := cls; Substance.gb := g;
                            Substance._omf := length (heap p);
                            Substance._mfip := ∅ |},
                  alloc {| var_name := Substance.overall_fraction_var cls;
                           var_dof := cells1; var_scope := Subdomain |}
                        (with_name cls g p))
         | _ :: _ => (Raise TypeError, with_name cls g p)
         end.
Proof.
  unfold Substance.construct, bind at 1. rewrite new_unfold.
  destruct (is_registered cls g p); [done|].
  by destruct (Substance.__abstractmethods__ cls).
Qed.

Lemma is_registered_with_name (cls : Substance.class) (g g' : GridBucket) (p : process) :
  is_registered cls g' (with_name cls g p)
  = if decide (gb_ref g = gb_ref g') then true else is_registered cls g' p.
Proof.
  unfold is_registered, with_name. simpl. case_decide as Hg.
  - rewrite <- Hg, lookup_insert_eq. apply bool_decide_eq_true. set_solver.
  - by rewrite lookup_insert_ne.
Qed.

Lemma is_registered_alloc (cls : Substance.class) (g : GridBucket) v (p : process) :
  is_registered cls g (alloc v p) = is_registered cls g p.
Proof. done. Qed.

(** C5.  For a concrete class: construction raises the duplicate-name error
    exactly when the name of the class is already in the process-wide table
    under the given domain instance; after a construction that succeeded, a
    second one against the same instance raises it (and changes nothing);
    and when the name is under neither of two different instances, the
    construction succeeds against the one and then against the other. *)
Theorem substance_unique_per_domain
    (cls : Substance.class) (g g' : GridBucket) (p : process) :
  Substance.__abstractmethods__ cls = [] →
  ((∃ p', Substance.construct cls g p = (Raise RuntimeError, p'))
     ↔ is_registered cls g p = true)
  ∧ (∀ sub p1, Substance.construct cls g p = (Return sub, p1) →
       Substance.construct cls g p1 = (Raise RuntimeError, p1))
  ∧ (gb_ref g ≠ gb_ref g' →
     is_registered cls g p = false → is_registered cls g' p = false →
     ∃ sub p1 sub' p2,
       Substance.construct cls g p = (Return sub, p1)
       ∧ Substance.construct cls g' p1 = (Return sub', p2)).
Proof.
  intros Hconcrete. split; [|split].
  - rewrite construct_unfold, Hconcrete.
    destruct (is_registered cls g p).
    + split; [done|]. intros _. by exists p.
    + split; [by intros [p' [=]]|done].
  - intros sub p1. rewrite construct_unfold, Hconcrete.
    destruct (is_registered cls g p) eqn:Hreg; [done|].
    intros [= _ <-]. rewrite construct_unfold, is_registered_alloc,
      is_registered_with_name. by rewrite decide_True.
  - intros Hg Hreg Hreg'. rewrite construct_unfold, Hconcrete, Hreg.
    eexists _, _, _, _. split; [done|].
    rewrite construct_unfold, Hconcrete, is_registered_alloc, is_registered_with_name.
    rewrite decide_False by done. by rewrite Hreg'.
Qed.

(** C10.  A construction that raises the duplicate-name error leaves the
    whole process state as it was, the substance table with it: the names
    under every domain instance are what they were. *)
Theorem duplicate_name_leaves_table
    (cls : Substance.class) (g : GridBucket) (p : process) :
  (Substance.construct cls g p).1 = Raise RuntimeError →
  (Substance.construct cls g p).2 = p
  ∧ substance_instances (Substance.construct cls g p).2 = substance_instances p.
Proof.
  rewrite construct_unfold. destruct (is_registered cls g p); [done|].
  by destruct (Substance.__abstractmethods__ cls).
Qed.

End Substance_claims.

Lemma substance_unique_per_domain_witness :
  Substance.__abstractmethods__ Water = []
  ∧ (∀ sub p1, Substance.construct (N := porepy_names) Water gb0 p0 = (Return sub, p1) →
       Substance.construct (N := porepy_names) Water gb0 p1 = (Raise RuntimeError, p1))
  ∧ ∃ sub p1 sub' p2,
      Substance.construct (N := porepy_names) Water gb0 p0 = (Return sub, p1)
      ∧ Substance.construct (N := porepy_names) Water gb1 p1 = (Return sub', p2).
Proof.
  split; [reflexivity|].
  pose proof (substance_unique_per_domain (N := porepy_names) Water gb0 gb1 p0 eq_refl)
    as (_ & Hsame & Hother).
  split; [exact Hsame|]. apply Hother; [simpl; lia|reflexivity|reflexivity].
Defined.

Lemma duplicate_name_leaves_table_witness :
  (Substance.construct (N := porepy_names) Water gb0 with_water).1 = Raise RuntimeError
  ∧ (Substance.construct (N := porepy_names) Water gb0 with_water).2 = with_water
  ∧ substance_instances (Substance.construct (N := porepy_names) Water gb0 with_water).2
    = substance_instances with_water.
Proof.
  split; [reflexivity|].
  apply (duplicate_name_leaves_table (N := porepy_names) Water gb0 with_water).
  reflexivity.
Defined.

(** ** The overall fraction of a substance and the registry *)

Section Overall_fraction.
Context {N : Naming}.

Lemma overall_fraction_var_underscore (cls : Substance.class) :
  occurs "_"%char (Substance.overall_fraction_var cls) = true.
Proof. unfold Substance.overall_fraction_var. simpl. apply occurs_app. Qed.

(** C3, as amended.  When a substance is constructed, its overall-fraction
    variable, named by the overall-fraction entry of the naming table, an
    underscore and the name of the class, is made by a direct call of the
    subdomain creation routine and kept on the substance.  The registry of a
    domain is not involved: no entry of it refers to that variable, and a
    later call of the accessor with that name returns, and returns another
    instance. *)
Theorem overall_fraction_outside_registry
    (cls : Substance.class) (g : GridBucket) (d : ComputationalDomain.t)
    (p p' : process) (sub : Substance.t) :
  Substance.construct cls g p = (Return sub, p') →
  registry_allocated d p →
  create_merged_variable g cells1 (Substance.overall_fraction_var cls) (with_name cls g p)
    = (Return (Substance.overall_fraction sub), p')
  ∧ heap p' !! Substance.overall_fraction sub
    = Some {| var_name := Substance.overall_fraction_var cls;
              var_dof := cells1; var_scope := Subdomain |}
  ∧ (∀ m, _global_ad d !! m ≠ Some (Substance.overall_fraction sub))
  ∧ ∃ v s', __call__ (Substance.overall_fraction_var cls) cells1
              {| self := d; proc := p' |} = (Return v, s')
            ∧ v ≠ Substance.overall_fraction sub.
Proof.
  rewrite construct_unfold. intros Hconstruct Hallocated.
  destruct (is_registered cls g p); [done|].
  destruct (Substance.__abstractmethods__ cls); [|done].
  injection Hconstruct as <- <-. unfold Substance.overall_fraction. simpl.
  split; [done|]. split; [by apply list_lookup_middle|].
  assert (∀ m v, _global_ad d !! m = Some v → v ≠ length (heap p)) as Hold.
  { intros m v Hm. apply Hallocated in Hm. simpl in Hm. lia. }
  split; [by intros m Hm; apply (Hold _ _ Hm)|].
  set (n := Substance.overall_fraction_var cls).
  destruct (_global_ad d !! n) as [v|] eqn:Hn.
  - exists v. eexists. split; [by apply call_registered|]. by apply (Hold n).
  - destruct (decide (first_token n = mortar_prefix)) as [Hfirst|Hfirst].
    + eexists _, _. split.
      * apply call_mortar; [done..|]. apply overall_fraction_var_underscore.
      * simpl. rewrite length_app. simpl. lia.
    + eexists _, _. split; [by apply call_subdomain|].
      simpl. rewrite length_app. simpl. lia.
Qed.

(** The hypothesis of the theorem is an invariant: the accessor and the
    construction of a substance keep every registered reference allocated. *)
Lemma call_keeps_allocated (n : string) (dof : DofInfo) (s : state) :
  registry_allocated (self s) (proc s) →
  registry_allocated (self (__call__ n dof s).2) (proc (__call__ n dof s).2).
Proof.
  intros Hallocated.
  assert (∀ sc, registry_allocated (self (with_new_variable sc n dof s))
                                   (proc (with_new_variable sc n dof s))) as Hnew.
  { intros sc. unfold registry_allocated. simpl. apply map_Forall_insert_2.
    - rewrite length_app. simpl. lia.
    - intros m v Hm. apply Hallocated in Hm. simpl in Hm.
      rewrite length_app. simpl. lia. }
  destruct (_global_ad (self s) !! n) as [v|] eqn:Hn.
  { by rewrite (call_registered _ _ _ _ Hn). }
  destruct (decide (first_token n = mortar_prefix)) as [Hfirst|Hfirst].
  - destruct (occurs "_"%char n) eqn:Hsep.
    + rewrite call_mortar by done. apply Hnew.
    + by rewrite call_bare_prefix.
  - rewrite call_subdomain by done. apply Hnew.
Qed.

Lemma construct_keeps_allocated
    (cls : Substance.class) (g : GridBucket) (d : ComputationalDomain.t) (p : process) :
  registry_allocated d p → registry_allocated d (Substance.construct cls g p).2.
Proof.
  intros Hallocated. rewrite construct_unfold.
  destruct (is_registered cls g p); [done|].
  destruct (Substance.__abstractmethods__ cls); [|done].
  intros m v Hm. apply Hallocated in Hm. simpl in *.
  rewrite length_app. simpl. lia.
Qed.

End Overall_fraction.

(** C3 as it is stated fails: a [Water] is constructed on the grid bucket of a
    domain, and afterwards the existence check of the domain does not know
    the name of its overall fraction, and the accessor, asked for that name,
    returns a variable that is not the one the substance holds. *)
Lemma overall_fraction_not_registered :
  ¬ (∀ sub p', Substance.construct (N := porepy_names) Water (gb d0) p0 = (Return sub, p') →
       is_variable d0 (Substance.overall_fraction_var (N := porepy_names) Water) = true
       ∧ ∃ s', __call__ (N := porepy_names)
                 (Substance.overall_fraction_var (N := porepy_names) Water) cells1
                 {| self := d0; proc := p' |}
               = (Return (Substance.overall_fraction sub), s')).
Proof.
  intros Hclaim.
  destruct (Hclaim _ _ eq_refl) as [Hknown _].
  vm_compute in Hknown. discriminate Hknown.
Qed.

Lemma overall_fraction_outside_registry_witness :
  registry_allocated (self with_zeta_water) (proc with_zeta_water)
  ∧ _global_ad (self with_zeta_water) !! "zeta_Water" = Some 0
  ∧ ∃ sub p' v s',
      Substance.construct (N := porepy_names) Water gb0 (proc with_zeta_water)
        = (Return sub, p')
      ∧ Substance.overall_fraction sub = 1
      ∧ __call__ (N := porepy_names) (Substance.overall_fraction_var (N := porepy_names) Water)
          cells1 {| self := self with_zeta_water; proc := p' |} = (Return v, s')
      ∧ v ≠ Substance.overall_fraction sub.
Proof.
  assert (registry_allocated (self with_zeta_water) (proc with_zeta_water)) as Hallocated.
  { apply map_Forall_insert_2; [vm_compute; lia|apply map_Forall_empty]. }
  split; [exact Hallocated|]. split; [reflexivity|].
  destruct (overall_fraction_outside_registry (N := porepy_names) Water gb0
              (self with_zeta_water) (proc with_zeta_water) _ _ eq_refl Hallocated)
    as (_ & _ & _ & v & s' & Hcall & Hother).
  eexists _, _, v, s'. split; [reflexivity|]. split; [reflexivity|]. split; assumption.
Defined.

(** ** Phases and the composition *)

Lemma inner_loop (subs : list Substance.t) (acc : list string) (u : gset string) :
  foldl (fun '(substances_in_phase, unique_substances) sub =>
           let n := Substance.name (Substance.__class__ sub) in
           (substances_in_phase ++ [n], {[ n ]} ∪ unique_substances))
        (acc, u) subs
  = (acc ++ ((fun sub => Substance.name (Substance.__class__ sub)) <$> subs),
     list_to_set ((fun sub => Substance.name (Substance.__class__ sub)) <$> subs) ∪ u).
Proof.
  revert acc u. induction subs as [|sub subs IH]; intros acc u; simpl.
  - by rewrite app_nil_r, (left_id_L ∅ (∪)).
  - rewrite IH. rewrite <- app_assoc. f_equal.
    rewrite (assoc_L (∪)). f_equal. apply (comm_L (∪)).
Qed.

Lemma outer_loop (phases : list PhaseField.t)
    (c : gmap string (list string)) (u : gset string) :
  foldl (fun '(composition, unique_substances) phase =>
           let '(substances_in_phase, unique_substances) :=
             foldl (fun '(substances_in_phase, unique_substances) sub =>
                      let n := Substance.name (Substance.__class__ sub) in
                      (substances_in_phase ++ [n], {[ n ]} ∪ unique_substances))
                   ([], unique_substances) (PhaseField.substances phase) in
           (<[PhaseField.name phase := substances_in_phase]> composition,
            unique_substances))
        (c, u) phases
  = (foldl (fun composition phase =>
              <[PhaseField.name phase := names_of phase]> composition) c phases,
     list_to_set (concat (names_of <$> phases)) ∪ u).
Proof.
  revert c u. induction phases as [|phase phases IH]; intros c u; simpl.
  - by rewrite (left_id_L ∅ (∪)).
  - rewrite inner_loop. simpl. rewrite IH. f_equal.
    fold (names_of phase). rewrite list_to_set_app_L, (assoc_L (∪)).
    f_equal. apply (comm_L (∪)).
Qed.

Lemma resolve_composition_unfold (s : state) :
  _resolve_composition s = (Return tt, resolved s).
Proof.
  unfold _resolve_composition, bind, get, Phases. rewrite outer_loop.
  unfold resolved, substance_names_of, composition_of, on_self, modify.
  by rewrite (right_id_L ∅ (∪)).
Qed.

Lemma resolved_idempotent (s : state) : resolved (resolved s) = resolved s.
Proof. done. Qed.

Lemma up_to_date_resolved (s : state) : up_to_date s ↔ resolved s = s.
Proof. unfold up_to_date. by rewrite resolve_composition_unfold. Qed.

Lemma composition_of_snoc (l : list PhaseField.t) (phase : PhaseField.t) :
  composition_of (l ++ [phase])
  = <[PhaseField.name phase := names_of phase]> (composition_of l).
Proof. unfold composition_of. by rewrite foldl_app. Qed.

(** A name no listed phase bears is no key of the composition. *)
Lemma composition_of_absent (l : list PhaseField.t) (k : string) :
  k ∉ PhaseField.name <$> l → composition_of l !! k = None.
Proof.
  induction l as [|phase l IH] using rev_ind; intros Hk; [done|].
  rewrite composition_of_snoc. rewrite fmap_app in Hk.
  apply not_elem_of_app in Hk as [Hl Hphase].
  rewrite lookup_insert_ne; [by apply IH|].
  intros Heq. apply Hphase. rewrite <- Heq. simpl. by left.
Qed.

(** When the listed phases bear pairwise different names, each of them finds
    its own names, in its own order, under its name. *)
Lemma composition_of_distinct (l : list PhaseField.t) (phase : PhaseField.t) :
  NoDup (PhaseField.name <$> l) → phase ∈ l →
  composition_of l !! PhaseField.name phase = Some (names_of phase).
Proof.
  induction l as [|last l IH] using rev_ind; intros Hnames Hin.
  { by apply elem_of_nil in Hin. }
  rewrite composition_of_snoc. rewrite fmap_app in Hnames.
  apply NoDup_app in Hnames as (Hl & Hlast & _).
  apply elem_of_app in Hin as [Hin|Hin].
  - rewrite lookup_insert_ne; [by apply IH|].
    intros Heq. apply (Hlast (PhaseField.name phase)).
    + by apply list_elem_of_fmap_2.
    + rewrite <- Heq. simpl. by left.
  - apply list_elem_of_singleton in Hin as ->. by rewrite lookup_insert_eq.
Qed.

(** The set of names is the union of the names of the listed phases. *)
Lemma substance_names_of_spec (l : list PhaseField.t) (x : string) :
  x ∈ substance_names_of l ↔ ∃ phase, phase ∈ l ∧ x ∈ names_of phase.
Proof.
  unfold substance_names_of. induction l as [|first l IH]; simpl.
  - rewrite elem_of_empty. split; [done|]. intros (phase & Hin & _).
    by apply elem_of_nil in Hin.
  - rewrite list_to_set_app_L, elem_of_union, elem_of_list_to_set, IH. split.
    + intros [Hx|(phase & Hin & Hx)].
      * exists first. split; [by left|done].
      * exists phase. split; [by right|done].
    + intros (phase & Hin & Hx). apply elem_of_cons in Hin as [->|Hin].
      * by left.
      * right. by exists phase.
Qed.

(** ** What the resolver stores *)

(** X1.  After [_resolve_composition], whatever the state it ran on: the
    set of substance names is the union of the names of the listed phases; a
    name no listed phase bears is no key of the composition; when the listed
    phases bear pairwise different names, every listed phase finds exactly
    its own names, in its own order, under its name; resolving again changes
    nothing; and the phase list is the one it was. *)
Theorem resolve_composition_spec (s : state) :
  (∀ x, x ∈ _substance_names (self (_resolve_composition s).2)
        ↔ ∃ phase, phase ∈ _anticipated_phases (self s) ∧ x ∈ names_of phase)
  ∧ (∀ k, k ∉ PhaseField.name <$> _anticipated_phases (self s) →
          _substance_in_phase (self (_resolve_composition s).2) !! k = None)
  ∧ (NoDup (PhaseField.name <$> _anticipated_phases (self s)) →
     ∀ phase, phase ∈ _anticipated_phases (self s) →
       _substance_in_phase (self (_resolve_composition s).2) !! PhaseField.name phase
       = Some (names_of phase))
  ∧ (_resolve_composition (_resolve_composition s).2).2 = (_resolve_composition s).2
  ∧ _anticipated_phases (self (_resolve_composition s).2) = _anticipated_phases (self s).
Proof.
  rewrite !resolve_composition_unfold. simpl.
  split; [by intros x; apply substance_names_of_spec|].
  split; [by intros k; apply composition_of_absent|].
  split; [by intros Hnames phase; apply composition_of_distinct|].
  split; [|done]. by rewrite ?resolve_composition_unfold.
Qed.

(** The scenario of two phases: Liquid with Water and Salt, Gas with
    Water. *)
Example resolve_two_phases :
  ns (self (_resolve_composition two_phases).2) = 2
  ∧ np (self (_resolve_composition two_phases).2) = 2
  ∧ _substance_in_phase (self (_resolve_composition two_phases).2) !! "Liquid"
    = Some ["Water"; "Salt"]
  ∧ _substance_in_phase (self (_resolve_composition two_phases).2) !! "Gas"
    = Some ["Water"].
Proof. repeat split; vm_compute; reflexivity. Qed.

(** ** [add_phase] *)

(** The name [PhaseField] is not bound when the module runs: every call of
    [add_phase] stops at the test of its first line. *)
Lemma add_phase_name_error (phases : phases_arg) (s : state) :
  add_phase phases s = (Raise NameError, s).
Proof. reflexivity. Qed.

(** C1, at the failing input.  [add_phase([A, B, A])] raises [NameError] at
    [isinstance(phases, PhaseField)]: nothing is appended and no warning is
    issued, so that a phase list that was empty stays empty. *)
Theorem add_phase_batch_raises_name_error (A B : PhaseField.t) (s : state) :
  (add_phase (Many [A; B; A]) s).1 = Raise NameError
  ∧ _anticipated_phases (self (add_phase (Many [A; B; A]) s).2)
    = _anticipated_phases (self s)
  ∧ warned (proc (add_phase (Many [A; B; A]) s).2) = warned (proc s)
  ∧ (add_phase (Many [A; B; A]) s).2 = s.
Proof. by rewrite add_phase_name_error. Qed.

(** A domain without phases and without composition is up to date. *)
Lemma blank_up_to_date (s : state) :
  _anticipated_phases (self s) = [] →
  _substance_names (self s) = ∅ → _substance_in_phase (self s) = ∅ →
  up_to_date s.
Proof.
  intros Hphases Hnames Hin_phase. apply up_to_date_resolved.
  destruct s as [[] ?]. simpl in *. subst. done.
Qed.


(** X16.  [add_phase] cannot add a phase: every call, for one phase or for
    a list, raises [NameError], and after any sequence of calls the state is
    the one before them, the number of phases with it. *)
Theorem add_phase_never_adds (l : list phases_arg) (s : state) :
  Forall (fun phases => (add_phase phases s).1 = Raise NameError) l
  ∧ add_phases l s = s
  ∧ np (self (add_phases l s)) = np (self s).
Proof.
  assert (add_phases l s = s) as Hsame.
  { induction l as [|phases l IH]; [done|].
    change (add_phases l (add_phase phases s).2 = s).
    by rewrite add_phase_name_error. }
  split; [|by rewrite Hsame].
  apply Forall_forall. intros phases _. by rewrite add_phase_name_error.
Qed.


Lemma no_underscore_is_subdomain_witness :
  first_token "pressure" = "pressure"
  ∧ __call__ (N := porepy_names) "pressure" cells1 s0
    = (Return 0, with_new_variable Subdomain "pressure" cells1 s0).
Proof.
  apply (no_underscore_is_subdomain (N := porepy_names) "pressure" cells1 s0);
    [reflexivity|discriminate|reflexivity].
Defined.

(** * Further properties *)

(** ** The registry accessor *)

Section Registry_more.
Context {N : Naming}.

(** The three ways a call of the accessor can go. *)
Lemma call_cases (n : string) (dof : DofInfo) (s : state) :
  (∃ v, _global_ad (self s) !! n = Some v ∧ __call__ n dof s = (Return v, s))
  ∨ (_global_ad (self s) !! n = None
     ∧ __call__ n dof s
       = (Return (length (heap (proc s))),
          with_new_variable (if decide (first_token n = mortar_prefix)
                             then Mortar else Subdomain) n dof s))
  ∨ (_global_ad (self s) !! n = None ∧ first_token n = mortar_prefix
     ∧ occurs "_"%char n = false ∧ __call__ n dof s = (Raise IndexError, s)).
Proof.
  destruct (_global_ad (self s) !! n) as [v|] eqn:Hn.
  { left. exists v. split; [done|]. by apply call_registered. }
  right. case_decide as Hfirst.
  - destruct (occurs "_"%char n) eqn:Hsep.
    + left. split; [done|]. by apply call_mortar.
    + right. repeat split; [done..|]. by apply call_bare_prefix.
  - left. split; [done|]. by apply call_subdomain.
Qed.

Lemma is_variable_true (d : ComputationalDomain.t) (n : string) :
  is_variable d n = true ↔ is_Some (_global_ad d !! n).
Proof.
  unfold is_variable. case_decide as Hn.
  - split; [|done]. intros _. by apply elem_of_dom.
  - split; [done|]. intros Hsome. by apply elem_of_dom in Hsome.
Qed.

Lemma is_variable_lookup (d d' : ComputationalDomain.t) (n : string) :
  _global_ad d' !! n = _global_ad d !! n → is_variable d' n = is_variable d n.
Proof.
  intros Heq. apply eq_true_iff_eq. rewrite !is_variable_true. by rewrite Heq.
Qed.

(** X4.  The existence check follows the accessor: a name the accessor has
    returned a variable for is reported as registered; the names a call was
    not made for are reported as before; a call for a registered name, and a
    call that raises, which it does with [IndexError] only, change nothing at
    all. *)
Theorem is_variable_tracks_calls (n : string) (dof : DofInfo) (s : state) :
  (∀ v, (__call__ n dof s).1 = Return v → is_variable (self (__call__ n dof s).2) n = true)
  ∧ (∀ m, m ≠ n →
       is_variable (self (__call__ n dof s).2) m = is_variable (self s) m)
  ∧ (is_variable (self s) n = true → (__call__ n dof s).2 = s)
  ∧ (∀ e, (__call__ n dof s).1 = Raise e →
       e = IndexError ∧ (__call__ n dof s).2 = s ∧ is_variable (self s) n = false).
Proof.
  destruct (call_cases n dof s) as [(v & Hn & ->)|[(Hn & ->)|(Hn & _ & _ & ->)]]; simpl.
  - split; [intros _ _; apply is_variable_true; by rewrite Hn|].
    split; [done|]. split; [done|]. by intros e [=].
  - split; [intros _ _; apply is_variable_true; simpl; by rewrite lookup_insert_eq|].
    split; [intros m Hm; apply is_variable_lookup; simpl; by rewrite lookup_insert_ne|].
    split; [|by intros e [=]].
    intros Hregistered. apply is_variable_true in Hregistered.
    rewrite Hn in Hregistered. by destruct Hregistered.
  - split; [by intros v [=]|]. split; [done|]. split; [done|].
    intros e [= <-]. split; [done|]. split; [done|].
    apply not_true_is_false. rewrite is_variable_true, Hn. by intros [].
Qed.

(** X5.  DOF information given with a name that is already registered is
    dropped: the call returns the registered variable, creates nothing, does
    not update the DOFs, and the variable still carries the DOF information
    it was created with. *)
Theorem dof_info_of_first_request_stays
    (n : string) (dof dof' : DofInfo) (s s1 : state) (v : ref) :
  _global_ad (self s) !! n = None →
  __call__ n dof s = (Return v, s1) →
  __call__ n dof' s1 = (Return v, s1)
  ∧ var_dof <$> heap (proc s1) !! v = Some dof
  ∧ dof_manager (self s1) = S (dof_manager (self s)).
Proof.
  intros Hn Hcall.
  destruct (call_cases n dof s) as [(w & Hw & _)|[(_ & Hnew)|(_ & _ & _ & Hraise)]].
  - by rewrite Hn in Hw.
  - rewrite Hnew in Hcall. injection Hcall as <- <-.
    split; [apply call_registered; simpl; by rewrite lookup_insert_eq|].
    simpl. by rewrite list_lookup_middle.
  - by rewrite Hraise in Hcall.
Qed.

Lemma with_new_variable_sound (n : string) (dof : DofInfo) (s : state) :
  registry_sound s →
  registry_sound (with_new_variable (if decide (first_token n = mortar_prefix)
                                     then Mortar else Subdomain) n dof s).
Proof.
  intros Hsound m v. simpl. intros Hm.
  apply lookup_insert_Some in Hm as [[<- <-]|[Hne Hm]].
  - exists dof. by apply list_lookup_middle.
  - destruct (Hsound m v Hm) as [dof0 Hv]. exists dof0.
    by apply lookup_app_l_Some.
Qed.

Lemma call_keeps_sound (n : string) (dof : DofInfo) (s : state) :
  registry_sound s → registry_sound (__call__ n dof s).2.
Proof.
  intros Hsound.
  destruct (call_cases n dof s) as [(v & _ & ->)|[(_ & ->)|(_ & _ & _ & ->)]];
    [done| |done].
  by apply with_new_variable_sound.
Qed.

Lemma calls_keep_sound (l : list (string * DofInfo)) (s : state) :
  registry_sound s → registry_sound (calls l s).
Proof.
  revert s. induction l as [|c l IH]; intros s Hsound; [done|].
  simpl. by apply IH, call_keeps_sound.
Qed.

(** X6.  The registry stays sound under any sequence of accessor calls:
    every entry refers to an existing variable that bears the name it is
    registered under and has the scope the first token of that name asks
    for; in particular no variable is registered under two names. *)
Theorem registry_stays_sound (l : list (string * DofInfo)) (s : state) :
  registry_sound s →
  registry_sound (calls l s)
  ∧ ∀ n m v, _global_ad (self (calls l s)) !! n = Some v →
             _global_ad (self (calls l s)) !! m = Some v → n = m.
Proof.
  intros Hsound. apply (calls_keep_sound l) in Hsound. split; [done|].
  intros n m v Hn Hm.
  destruct (Hsound _ _ Hn) as [dof1 H1]. destruct (Hsound _ _ Hm) as [dof2 H2].
  rewrite H1 in H2. by injection H2.
Qed.

(** X7.  Different names never share a variable: on a sound registry, two
    calls of the accessor with different names, with any accessor calls in
    between, return different references. *)
Theorem different_names_different_variables
    (n m : string) (dof dof' : DofInfo) (between : list (string * DofInfo))
    (s s1 s2 : state) (v w : ref) :
  registry_sound s → n ≠ m →
  __call__ n dof s = (Return v, s1) →
  __call__ m dof' (calls between s1) = (Return w, s2) →
  v ≠ w.
Proof.
  intros Hsound Hne Hn Hm ->.
  assert (registry_sound s2) as Hsound2.
  { replace s2 with (__call__ m dof' (calls between s1)).2 by by rewrite Hm.
    apply call_keeps_sound, calls_keep_sound.
    replace s1 with (__call__ n dof s).2 by by rewrite Hn.
    by apply call_keeps_sound. }
  assert (_global_ad (self s2) !! n = Some w) as Hn2.
  { replace s2 with (__call__ m dof' (calls between s1)).2 by by rewrite Hm.
    apply call_keeps_entry, calls_keep_entry. by apply (call_returns_entry n dof s). }
  assert (_global_ad (self s2) !! m = Some w) as Hm2.
  { by apply (call_returns_entry m dof' (calls between s1)). }
  destruct (Hsound2 _ _ Hn2) as [dof1 H1]. destruct (Hsound2 _ _ Hm2) as [dof2 H2].
  rewrite H1 in H2. by injection H2.
Qed.

Lemma call_counts (n : string) (dof : DofInfo) (s : state) :
  dof_manager (self (__call__ n dof s).2) + size (_global_ad (self s))
  = dof_manager (self s) + size (_global_ad (self (__call__ n dof s).2))
  ∧ dof_manager (self (__call__ n dof s).2) + length (heap (proc s))
    = dof_manager (self s) + length (heap (proc (__call__ n dof s).2)).
Proof.
  destruct (call_cases n dof s) as [(v & _ & ->)|[(Hn & ->)|(_ & _ & _ & ->)]];
    [done| |done].
  simpl. rewrite map_size_insert_None by done. rewrite length_app. simpl. lia.
Qed.

(** X8.  Over any sequence of accessor calls the DOF manager is updated
    exactly once for each variable that is created: the number of updates,
    the number of names that entered the registry and the number of variable
    objects that were made are the same. *)
Theorem dofs_updated_once_per_variable (l : list (string * DofInfo)) (s : state) :
  dof_manager (self (calls l s)) + size (_global_ad (self s))
  = dof_manager (self s) + size (_global_ad (self (calls l s)))
  ∧ dof_manager (self (calls l s)) + length (heap (proc s))
    = dof_manager (self s) + length (heap (proc (calls l s))).
Proof.
  revert s. induction l as [|c l IH]; intros s; [done|].
  simpl. destruct (IH (__call__ c.1 c.2 s).2) as [Hnames Hobjects].
  destruct (call_counts c.1 c.2 s) as [Hname Hobject]. lia.
Qed.

(** X23.  The accessor leaves the rest alone: whatever its outcome, the
    phases, the composition and the materials of the domain, the substance
    table and the warnings are what they were, and the variables that
    existed before are still there, unchanged. *)
Theorem accessor_leaves_rest_alone (n : string) (dof : DofInfo) (s : state) :
  _anticipated_phases (self (__call__ n dof s).2) = _anticipated_phases (self s)
  ∧ _substance_names (self (__call__ n dof s).2) = _substance_names (self s)
  ∧ _substance_in_phase (self (__call__ n dof s).2) = _substance_in_phase (self s)
  ∧ _material_subdomains (self (__call__ n dof s).2) = _material_subdomains (self s)
  ∧ substance_instances (proc (__call__ n dof s).2) = substance_instances (proc s)
  ∧ warned (proc (__call__ n dof s).2) = warned (proc s)
  ∧ heap (proc s) `prefix_of` heap (proc (__call__ n dof s).2).
Proof.
  destruct (call_cases n dof s) as [(v & _ & ->)|[(_ & ->)|(_ & _ & _ & ->)]];
    repeat split; try done.
  simpl. by apply prefix_app_r.
Qed.

End Registry_more.

Lemma registry_sound_empty {N : Naming} (s : state) :
  _global_ad (self s) = ∅ → registry_sound s.
Proof. intros Hempty n v. by rewrite Hempty, lookup_empty. Qed.

Lemma dof_info_of_first_request_stays_witness :
  _global_ad (self s0) !! "p" = None
  ∧ __call__ (N := porepy_names) "p" None (__call__ (N := porepy_names) "p" cells1 s0).2
    = (Return 0, (__call__ (N := porepy_names) "p" cells1 s0).2)
  ∧ var_dof <$> heap (proc (__call__ (N := porepy_names) "p" cells1 s0).2) !! 0
    = Some cells1
  ∧ dof_manager (self (__call__ (N := porepy_names) "p" cells1 s0).2)
    = S (dof_manager (self s0)).
Proof.
  split; [reflexivity|].
  apply (dof_info_of_first_request_stays (N := porepy_names) "p" cells1 None s0);
    reflexivity.
Defined.

Lemma registry_stays_sound_witness :
  registry_sound (N := porepy_names) s0
  ∧ registry_sound (N := porepy_names)
      (calls (N := porepy_names)
             [("mortar_flux", cells1); ("mortar", None); ("p", cells1); ("p", None)] s0)
  ∧ heap (proc (calls (N := porepy_names)
                  [("mortar_flux", cells1); ("mortar", None); ("p", cells1); ("p", None)]
                  s0))
    = [ {| var_name := "mortar_flux"; var_dof := cells1; var_scope := Mortar |};
        {| var_name := "p"; var_dof := cells1; var_scope := Subdomain |} ].
Proof.
  assert (registry_sound (N := porepy_names) s0) as Hsound.
  { intros n v Hn. discriminate Hn. }
  split; [exact Hsound|]. split; [|reflexivity].
  apply (registry_stays_sound (N := porepy_names) _ s0 Hsound).
Defined.

Lemma different_names_different_variables_witness :
  registry_sound (N := porepy_names) s0
  ∧ "p" ≠ "T"
  ∧ (__call__ (N := porepy_names) "p" cells1 s0).1 = Return 0
  ∧ (__call__ (N := porepy_names) "T" cells1
       (calls (N := porepy_names) [("p", None); ("mortar_flux", cells1)]
              (__call__ (N := porepy_names) "p" cells1 s0).2)).1 = Return 2
  ∧ 0 ≠ 2.
Proof.
  assert (registry_sound (N := porepy_names) s0) as Hsound.
  { intros n v Hn. discriminate Hn. }
  split; [exact Hsound|]. split; [discriminate|].
  split; [reflexivity|]. split; [reflexivity|].
  apply (different_names_different_variables (N := porepy_names)
           "p" "T" cells1 cells1 [("p", None); ("mortar_flux", cells1)]
           s0 (__call__ (N := porepy_names) "p" cells1 s0).2
           (__call__ (N := porepy_names) "T" cells1
              (calls (N := porepy_names) [("p", None); ("mortar_flux", cells1)]
                     (__call__ (N := porepy_names) "p" cells1 s0).2)).2
           0 2 Hsound);
    [discriminate|vm_compute; reflexivity|vm_compute; reflexivity].
Defined.

(** ** Substances *)

Section Substance_more.
Context {N : Naming}.

(** X9.  A class that is still abstract is not instantiated, but its name is
    entered all the same: the construction raises [TypeError] after the name
    was appended to the table, so that a second attempt raises the
    duplicate-name error instead. *)
Theorem abstract_class_leaves_name
    (cls : Substance.class) (g : GridBucket) (p : process) :
  Substance.__abstractmethods__ cls ≠ [] →
  is_registered cls g p = false →
  (Substance.construct cls g p).1 = Raise TypeError
  ∧ is_registered cls g (Substance.construct cls g p).2 = true
  ∧ heap (Substance.construct cls g p).2 = heap p
  ∧ (Substance.construct cls g (Substance.construct cls g p).2).1 = Raise RuntimeError.
Proof.
  intros Habstract Hfree. rewrite construct_unfold, Hfree.
  destruct (Substance.__abstractmethods__ cls) as [|method methods] eqn:Hmethods; [done|].
  simpl. assert (is_registered cls g (with_name cls g p) = true) as Hleft.
  { rewrite is_registered_with_name. by rewrite decide_True. }
  split; [done|]. split; [done|]. split; [done|].
  by rewrite construct_unfold, Hleft.
Qed.

Lemma with_name_other (cls : Substance.class) (g : GridBucket) (p : process) (k : ref) :
  k ≠ gb_ref g → substance_instances (with_name cls g p) !! k = substance_instances p !! k.
Proof. intros Hk. unfold with_name. simpl. by rewrite lookup_insert_ne. Qed.

Lemma with_name_own (cls : Substance.class) (g : GridBucket) (p : process) :
  substance_instances (with_name cls g p) !! gb_ref g
  = Some (default [] (substance_instances p !! gb_ref g) ++ [Substance.__name__ cls]).
Proof. unfold with_name. simpl. by rewrite lookup_insert_eq. Qed.

(** What a construction does to the table: nothing when it raises the
    duplicate-name error, and else the name is appended under the domain
    graph given. *)
Lemma construct_table (cls : Substance.class) (g : GridBucket) (p : process) :
  substance_instances (Substance.construct cls g p).2
  = if is_registered cls g p then substance_instances p
    else substance_instances (with_name cls g p).
Proof.
  rewrite construct_unfold. destruct (is_registered cls g p); [done|].
  by destruct (Substance.__abstractmethods__ cls).
Qed.

(** X10.  Whatever its outcome, a construction against one domain graph
    leaves the names kept under every other one as they were, appends at
    most its own name at the end of the list of its own, and keeps every list
    of the table free of repetitions. *)
Theorem construction_keeps_table_distinct
    (cls : Substance.class) (g : GridBucket) (p : process) :
  table_distinct p →
  table_distinct (Substance.construct cls g p).2
  ∧ (∀ k, k ≠ gb_ref g →
       substance_instances (Substance.construct cls g p).2 !! k
       = substance_instances p !! k)
  ∧ (substance_instances (Substance.construct cls g p).2 !! gb_ref g
     = substance_instances p !! gb_ref g
     ∨ substance_instances (Substance.construct cls g p).2 !! gb_ref g
       = Some (default [] (substance_instances p !! gb_ref g)
               ++ [Substance.__name__ cls])).
Proof.
  intros Hdistinct. unfold table_distinct in *. rewrite !construct_table.
  destruct (is_registered cls g p) eqn:Hregistered.
  { split; [done|]. split; [done|]. by left. }
  split; [|split; [by intros k Hk; apply with_name_other|right; apply with_name_own]].
  intros k names Hk. destruct (decide (k = gb_ref g)) as [->|Hne].
  - rewrite with_name_own in Hk. injection Hk as <-.
    unfold is_registered in Hregistered.
    destruct (substance_instances p !! gb_ref g) as [names|] eqn:Hg; simpl.
    + apply NoDup_app. split; [by apply (Hdistinct _ _ Hg)|].
      split; [|apply NoDup_singleton].
      intros x Hx Hx'. apply list_elem_of_singleton in Hx' as ->.
      by apply bool_decide_eq_false in Hregistered.
    + apply NoDup_singleton.
  - rewrite with_name_other in Hk by done. by apply (Hdistinct _ _ Hk).
Qed.

(** X11.  The uniqueness is one of names, not of classes: after a class was
    constructed against a domain graph, the construction of any class of the
    same [__name__] against it, abstract or not, raises the duplicate-name
    error and changes nothing. *)
Theorem uniqueness_is_by_name
    (cls cls' : Substance.class) (g : GridBucket) (p p1 : process) (sub : Substance.t) :
  Substance.__name__ cls' = Substance.__name__ cls →
  Substance.construct cls g p = (Return sub, p1) →
  Substance.construct cls' g p1 = (Raise RuntimeError, p1).
Proof.
  intros Hname. rewrite construct_unfold.
  destruct (is_registered cls g p); [done|].
  destruct (Substance.__abstractmethods__ cls); [|done].
  intros [= _ <-]. rewrite construct_unfold.
  assert (is_registered cls' g
            (alloc {| var_name := Substance.overall_fraction_var cls;
                      var_dof := cells1; var_scope := Subdomain |}
                   (with_name cls g p)) = true) as ->; [|done].
  unfold is_registered. simpl. rewrite lookup_insert_eq, Hname.
  apply bool_decide_eq_true, elem_of_app. right. by left.
Qed.

Lemma append_inj (a b c : string) : a +:+ b = a +:+ c → b = c.
Proof. induction a as [|x a IH]; simpl; [done|]. intros [=]. by apply IH. Qed.

Lemma append_assoc (a b c : string) : (a +:+ b) +:+ c = a +:+ (b +:+ c).
Proof.
  induction a as [|x a IH]; [done|].
  change (String x ((a +:+ b) +:+ c) = String x (a +:+ (b +:+ c))). by rewrite IH.
Qed.

(** X12.  Substances of different names have overall-fraction variables of
    different names. *)
Theorem overall_fraction_var_distinct (c c' : Substance.class) :
  Substance.name c ≠ Substance.name c' →
  Substance.overall_fraction_var c ≠ Substance.overall_fraction_var c'.
Proof.
  intros Hne Heq. apply Hne. unfold Substance.overall_fraction_var in Heq.
  apply append_inj in Heq. by apply (append_inj "_") in Heq.
Qed.

(** X13.  The name of a fraction in a phase does not tell the substance and
    the phase apart: a substance called [a_b] in the phase [c] and a
    substance called [a] in the phase [b_c] get the same variable name. *)
Theorem fraction_in_phase_var_ambiguous
    (a b c : string) (methods methods' : list string) :
  Substance.fraction_in_phase_var
    {| Substance.__name__ := a +:+ "_" +:+ b;
       Substance.__abstractmethods__ := methods |} c
  = Substance.fraction_in_phase_var
      {| Substance.__name__ := a; Substance.__abstractmethods__ := methods' |}
      (b +:+ "_" +:+ c).
Proof.
  unfold Substance.fraction_in_phase_var, Substance.name. simpl.
  by rewrite !append_assoc.
Qed.

End Substance_more.

Lemma abstract_class_leaves_name_witness :
  Substance.__abstractmethods__ Substance_class ≠ []
  ∧ is_registered Substance_class gb0 p0 = false
  ∧ (Substance.construct (N := porepy_names) Substance_class gb0 p0).1 = Raise TypeError
  ∧ is_registered Substance_class gb0
      (Substance.construct (N := porepy_names) Substance_class gb0 p0).2 = true
  ∧ heap (Substance.construct (N := porepy_names) Substance_class gb0 p0).2 = heap p0
  ∧ (Substance.construct (N := porepy_names) Substance_class gb0
       (Substance.construct (N := porepy_names) Substance_class gb0 p0).2).1
    = Raise RuntimeError.
Proof.
  split; [discriminate|]. split; [reflexivity|].
  apply (abstract_class_leaves_name (N := porepy_names) Substance_class gb0 p0);
    [discriminate|reflexivity].
Defined.

Lemma construction_keeps_table_distinct_witness :
  table_distinct p0
  ∧ table_distinct (Substance.construct (N := porepy_names) Salt gb0 with_water).2
  ∧ substance_instances (Substance.construct (N := porepy_names) Salt gb0 with_water).2 !! 0
    = Some ["Water"; "Salt"].
Proof.
  assert (table_distinct p0) as Hempty by apply map_Forall_empty.
  split; [exact Hempty|]. split; [|reflexivity].
  apply (construction_keeps_table_distinct (N := porepy_names) Salt gb0 with_water).
  apply (construction_keeps_table_distinct (N := porepy_names) Water gb0 p0 Hempty).
Defined.

Lemma uniqueness_is_by_name_witness :
  Substance.__name__ {| Substance.__name__ := "Water";
                        Substance.__abstractmethods__ := ["molar_mass"] |}
  = Substance.__name__ Water
  ∧ Substance.construct (N := porepy_names) Water gb0 p0
    = (Return (substance_on_gb0 Water 0), with_water)
  ∧ Substance.construct (N := porepy_names)
      {| Substance.__name__ := "Water"; Substance.__abstractmethods__ := ["molar_mass"] |}
      gb0 with_water
    = (Raise RuntimeError, with_water).
Proof.
  split; [reflexivity|]. split; [reflexivity|].
  apply (uniqueness_is_by_name (N := porepy_names) Water _ gb0 p0 with_water
           (substance_on_gb0 Water 0)); reflexivity.
Defined.

Lemma overall_fraction_var_distinct_witness :
  Substance.name Water ≠ Substance.name Salt
  ∧ Substance.overall_fraction_var (N := porepy_names) Water
    ≠ Substance.overall_fraction_var (N := porepy_names) Salt.
Proof.
  split; [discriminate|].
  apply (overall_fraction_var_distinct (N := porepy_names) Water Salt). discriminate.
Defined.

(** ** The fractions of a substance in the phases *)

Section Fractions_more.
Context {N : Naming}.

(** The two ways a request can go. *)
Lemma fraction_cases (phase_name : string) (s : Fractions.state) :
  (∃ v, Substance._mfip (Fractions.receiver s) !! phase_name = Some v
        ∧ Fractions.fraction_in_phase phase_name s = (Return v, s))
  ∨ (Substance._mfip (Fractions.receiver s) !! phase_name = None
     ∧ Fractions.fraction_in_phase phase_name s
       = (Return (length (heap (Fractions.world s))),
          Fractions.with_fraction phase_name s)).
Proof.
  unfold Fractions.fraction_in_phase, bind, get.
  destruct (Substance._mfip (Fractions.receiver s) !! phase_name) as [v|] eqn:Hphase.
  - left. by exists v.
  - right. done.
Qed.

Lemma request_keeps_entry (other phase_name : string) (s : Fractions.state) (v : ref) :
  Substance._mfip (Fractions.receiver s) !! phase_name = Some v →
  Substance._mfip (Fractions.receiver (Fractions.fraction_in_phase other s).2) !! phase_name
  = Some v.
Proof.
  intros Hphase. destruct (fraction_cases other s) as [(w & _ & ->)|(Hother & ->)]; [done|].
  simpl. rewrite lookup_insert_ne; [done|]. congruence.
Qed.

Lemma requests_keep_entry (l : list string) (phase_name : string)
    (s : Fractions.state) (v : ref) :
  Substance._mfip (Fractions.receiver s) !! phase_name = Some v →
  Substance._mfip (Fractions.receiver (Fractions.requests l s)) !! phase_name = Some v.
Proof.
  revert s. induction l as [|other l IH]; intros s Hphase; [done|].
  simpl. by apply IH, request_keeps_entry.
Qed.

Lemma request_returns_entry (phase_name : string) (s s1 : Fractions.state) (v : ref) :
  Fractions.fraction_in_phase phase_name s = (Return v, s1) →
  Substance._mfip (Fractions.receiver s1) !! phase_name = Some v.
Proof.
  destruct (fraction_cases phase_name s) as [(w & Hw & ->)|(_ & ->)].
  - by intros [= <- <-].
  - intros [= <- <-]. simpl. by rewrite lookup_insert_eq.
Qed.

(** X14.  [fraction_in_phase] always returns.  The first request for a phase
    makes one variable, by the subdomain creation routine, under the name
    [fraction_in_phase_var] gives, with one DOF per cell; every later request
    for that phase, whatever phases were asked for in between, returns that
    same variable and changes nothing. *)
Theorem fraction_in_phase_cached
    (phase_name : string) (between : list string) (s : Fractions.state) :
  ∃ v, (Fractions.fraction_in_phase phase_name s).1 = Return v
    ∧ Fractions.fraction_in_phase phase_name
        (Fractions.requests between (Fractions.fraction_in_phase phase_name s).2)
      = (Return v, Fractions.requests between (Fractions.fraction_in_phase phase_name s).2)
    ∧ (Substance._mfip (Fractions.receiver s) !! phase_name = None →
       create_merged_variable (Substance.gb (Fractions.receiver s)) cells1
         (Substance.fraction_in_phase_var
            (Substance.__class__ (Fractions.receiver s)) phase_name)
         (Fractions.world s)
       = (Return v, Fractions.world (Fractions.fraction_in_phase phase_name s).2)).
Proof.
  destruct (fraction_cases phase_name s) as [(v & Hv & Hold)|(Hnone & Hnew)].
  - rewrite Hold. simpl. exists v.
    split; [done|]. split; [|by rewrite Hv].
    destruct (fraction_cases phase_name (Fractions.requests between s))
      as [(w & Hw & ->)|(Hw & _)].
    + rewrite (requests_keep_entry between _ _ _ Hv) in Hw. by injection Hw as ->.
    + by rewrite (requests_keep_entry between _ _ _ Hv) in Hw.
  - rewrite Hnew. simpl. eexists. split; [done|]. split; [|done].
    pose proof (request_returns_entry _ _ _ _ Hnew) as Hentry.
    apply (requests_keep_entry between) in Hentry.
    destruct (fraction_cases phase_name
                (Fractions.requests between (Fractions.with_fraction phase_name s)))
      as [(w & Hw & ->)|(Hw & _)].
    + rewrite Hentry in Hw. by injection Hw as ->.
    + by rewrite Hentry in Hw.
Qed.

Lemma request_keeps_sound (phase_name : string) (s : Fractions.state) :
  Fractions.sound s → Fractions.sound (Fractions.fraction_in_phase phase_name s).2.
Proof.
  intros [Homf Hcache].
  destruct (fraction_cases phase_name s) as [(v & _ & ->)|(Hnone & ->)]; [done|].
  split; simpl; [rewrite length_app; simpl; lia|].
  intros ph v Hph. apply lookup_insert_Some in Hph as [[<- <-]|[Hne Hph]].
  - split; [rewrite length_app; simpl; lia|]. split; [lia|].
    intros other Hother. apply lookup_insert_Some in Hother as [[<- _]|[_ Hother]]; [done|].
    apply Hcache in Hother as [Hlt _]. lia.
  - destruct (Hcache _ _ Hph) as (Hlt & Hother & Hinj).
    split; [rewrite length_app; simpl; lia|]. split; [done|].
    intros other Hv. apply lookup_insert_Some in Hv as [[_ Hv]|[_ Hv]]; [lia|].
    by apply Hinj.
Qed.

Lemma requests_keep_sound (l : list string) (s : Fractions.state) :
  Fractions.sound s → Fractions.sound (Fractions.requests l s).
Proof.
  revert s. induction l as [|ph l IH]; intros s Hsound; [done|].
  simpl. by apply IH, request_keeps_sound.
Qed.

Lemma request_keeps_omf (phase_name : string) (s : Fractions.state) :
  Substance._omf (Fractions.receiver (Fractions.fraction_in_phase phase_name s).2)
  = Substance._omf (Fractions.receiver s).
Proof. by destruct (fraction_cases phase_name s) as [(v & _ & ->)|(_ & ->)]. Qed.

Lemma requests_keep_omf (l : list string) (s : Fractions.state) :
  Substance._omf (Fractions.receiver (Fractions.requests l s))
  = Substance._omf (Fractions.receiver s).
Proof.
  revert s. induction l as [|ph l IH]; intros s; [done|].
  simpl. by rewrite IH, request_keeps_omf.
Qed.

(** A substance that was just constructed holds its variables soundly. *)
Lemma constructed_sound (cls : Substance.class) (g : GridBucket) (p p' : process)
    (sub : Substance.t) :
  Substance.construct cls g p = (Return sub, p') →
  Fractions.sound {| Fractions.receiver := sub; Fractions.world := p' |}.
Proof.
  rewrite construct_unfold. destruct (is_registered cls g p); [done|].
  destruct (Substance.__abstractmethods__ cls); [|done].
  intros [= <- <-]. split; simpl; [rewrite length_app; simpl; lia|].
  intros ph v Hph. by rewrite lookup_empty in Hph.
Qed.

(** X15.  The variables of one substance are all different: on a sound
    substance, requests for two different phases, with any requests in
    between, return different variables, and neither of them is the overall
    fraction of the substance. *)
Theorem fractions_are_distinct
    (phase_name other : string) (between : list string)
    (s s1 s2 : Fractions.state) (v w : ref) :
  Fractions.sound s → phase_name ≠ other →
  Fractions.fraction_in_phase phase_name s = (Return v, s1) →
  Fractions.fraction_in_phase other (Fractions.requests between s1) = (Return w, s2) →
  v ≠ w
  ∧ v ≠ Substance.overall_fraction (Fractions.receiver s)
  ∧ w ≠ Substance.overall_fraction (Fractions.receiver s)
  ∧ Substance.overall_fraction (Fractions.receiver s2)
    = Substance.overall_fraction (Fractions.receiver s).
Proof.
  intros Hsound Hne Hfirst Hsecond.
  assert (s1 = (Fractions.fraction_in_phase phase_name s).2) as Hs1 by by rewrite Hfirst.
  assert (s2 = (Fractions.fraction_in_phase other (Fractions.requests between s1)).2)
    as Hs2 by by rewrite Hsecond.
  assert (Fractions.sound s2) as [_ Hcache].
  { rewrite Hs2, Hs1. by apply request_keeps_sound, requests_keep_sound, request_keeps_sound. }
  assert (Substance._omf (Fractions.receiver s2) = Substance._omf (Fractions.receiver s))
    as Homf.
  { rewrite Hs2, Hs1. by rewrite request_keeps_omf, requests_keep_omf, request_keeps_omf. }
  assert (Substance._mfip (Fractions.receiver s2) !! phase_name = Some v) as Hv.
  { rewrite Hs2. apply request_keeps_entry, requests_keep_entry.
    by apply (request_returns_entry phase_name s). }
  assert (Substance._mfip (Fractions.receiver s2) !! other = Some w) as Hw.
  { by apply (request_returns_entry other (Fractions.requests between s1)). }
  unfold Substance.overall_fraction. rewrite Homf.
  destruct (Hcache _ _ Hv) as (_ & Hv_omf & Hv_inj).
  destruct (Hcache _ _ Hw) as (_ & Hw_omf & _).
  rewrite Homf in Hv_omf, Hw_omf.
  split; [|done]. intros ->. apply Hne. symmetry. by apply Hv_inj.
Qed.

End Fractions_more.

Lemma fractions_are_distinct_witness :
  Fractions.sound fresh_water
  ∧ "Liquid" ≠ "Gas"
  ∧ (Fractions.fraction_in_phase (N := porepy_names) "Liquid" fresh_water).1 = Return 1
  ∧ (Fractions.fraction_in_phase (N := porepy_names) "Gas"
       (Fractions.requests (N := porepy_names) ["Liquid"; "Oil"]
          (Fractions.fraction_in_phase (N := porepy_names) "Liquid" fresh_water).2)).1
    = Return 3
  ∧ 1 ≠ 3
  ∧ 1 ≠ Substance.overall_fraction (Fractions.receiver fresh_water)
  ∧ 3 ≠ Substance.overall_fraction (Fractions.receiver fresh_water).
Proof.
  assert (Fractions.sound fresh_water) as Hsound.
  { apply (constructed_sound (N := porepy_names) Water gb0 p0). reflexivity. }
  split; [exact Hsound|]. split; [discriminate|].
  split; [reflexivity|]. split; [reflexivity|].
  destruct (fractions_are_distinct (N := porepy_names) "Liquid" "Gas" ["Liquid"; "Oil"]
              fresh_water
              (Fractions.fraction_in_phase (N := porepy_names) "Liquid" fresh_water).2
              (Fractions.fraction_in_phase (N := porepy_names) "Gas"
                 (Fractions.requests (N := porepy_names) ["Liquid"; "Oil"]
                    (Fractions.fraction_in_phase (N := porepy_names) "Liquid"
                       fresh_water).2)).2
              1 3 Hsound)
    as (H13 & H1 & H3 & _);
    [discriminate|vm_compute; reflexivity|vm_compute; reflexivity|].
  split; [exact H13|]. split; [exact H1|exact H3].
Defined.

(** ** The composition of any phase list *)

Lemma composition_of_last (l : list PhaseField.t) (k : string) :
  composition_of l !! k
  = names_of <$> last (filter (fun phase => PhaseField.name phase = k) l).
Proof.
  induction l as [|phase l IH] using rev_ind; [done|].
  rewrite composition_of_snoc, filter_app.
  destruct (decide (PhaseField.name phase = k)) as [<-|Hne].
  - rewrite lookup_insert_eq, filter_cons_True, filter_nil by done.
    by rewrite last_snoc.
  - rewrite lookup_insert_ne, filter_cons_False by done.
    rewrite filter_nil, app_nil_r. exact IH.
Qed.

(** X19.  [_resolve_composition] always returns, and the tuple it keeps under
    a name is the one of the last listed phase of that name (none when no
    listed phase bears it); it changes nothing but the two attributes of the
    composition. *)
Theorem composition_last_wins (s : state) (k : string) :
  (_resolve_composition s).1 = Return tt
  ∧ _substance_in_phase (self (_resolve_composition s).2) !! k
    = names_of <$> last (filter (fun phase => PhaseField.name phase = k)
                                (_anticipated_phases (self s)))
  ∧ set_composition (_substance_names (self s)) (_substance_in_phase (self s))
      (self (_resolve_composition s).2) = self s
  ∧ proc (_resolve_composition s).2 = proc s.
Proof.
  rewrite resolve_composition_unfold. simpl.
  split; [done|]. split; [apply composition_of_last|]. split; [|done].
  by destruct s as [[] ?].
Qed.

(** ** Materials *)

Lemma assign_unfold (g : Grid) (sub : Substance.t) (s : state) :
  assign_material_to_grid g sub s
  = if decide (g ∈ get_grids (gb (self s))) then
      (Return tt,
       {| self := set_material_subdomains
                    (<[g := {| grid := g; substance := sub |}]>
                       (_material_subdomains (self s))) (self s);
          proc := proc s |})
    else (Raise KeyError, s).
Proof. unfold assign_material_to_grid, bind, get. by case_decide. Qed.

(** X20.  [assign_material_to_grid] keeps the mapping total and keyed by the
    grid: when every grid of the grid bucket has a material and every
    material subdomain is kept under the grid it is bound to, the same holds
    after the call, whether it returned or raised. *)
Theorem assignment_keeps_materials (g : Grid) (sub : Substance.t) (s : state) :
  materials_total (self s) → materials_keyed (self s) →
  materials_total (self (assign_material_to_grid g sub s).2)
  ∧ materials_keyed (self (assign_material_to_grid g sub s).2).
Proof.
  intros Htotal Hkeyed. rewrite assign_unfold. case_decide as Hg; [|done].
  split.
  - intros g' Hg'. simpl. destruct (decide (g = g')) as [->|Hne].
    + by rewrite lookup_insert_eq.
    + rewrite lookup_insert_ne by done. by apply Htotal.
  - by apply map_Forall_insert_2.
Qed.

(** X21.  Assignments compose as updates of a mapping do: a second
    assignment to a grid makes the first one to that grid be forgotten, and
    assignments to different grids can be made in either order. *)
Theorem assignments_compose (g g' : Grid) (a b : Substance.t) (s : state) :
  assign_material_to_grid g b (assign_material_to_grid g a s).2
  = assign_material_to_grid g b s
  ∧ (g ≠ g' →
     (assign_material_to_grid g a (assign_material_to_grid g' b s).2).2
     = (assign_material_to_grid g' b (assign_material_to_grid g a s).2).2).
Proof.
  split.
  - rewrite (assign_unfold g a s). case_decide as Hg; [|done].
    rewrite !assign_unfold. simpl. rewrite !decide_True by done.
    by rewrite insert_insert_eq.
  - intros Hne. rewrite (assign_unfold g' b s), (assign_unfold g a s).
    destruct (decide (g ∈ get_grids (gb (self s)))) as [Hg|Hg];
      destruct (decide (g' ∈ get_grids (gb (self s)))) as [Hg'|Hg'];
      rewrite !assign_unfold; simpl;
      rewrite ?(decide_True _ _ Hg), ?(decide_True _ _ Hg'),
              ?(decide_False _ _ Hg), ?(decide_False _ _ Hg'); try done.
    simpl. by rewrite insert_insert_ne.
Qed.

(** X22.  The iterator yields, in the order of the grid bucket, each grid
    with its data and the material kept for that grid, up to the first grid
    that has no material, where it raises [KeyError]: what it yielded is the
    pairs before that grid, each with its material, the grid after them has
    none, and it runs through all pairs exactly when each has a material. *)
Theorem iterator_yields_materials
    (data : Type) (d : ComputationalDomain.t) (pairs : list (Grid * data)) :
  (∃ rest,
     pairs = (fst <$> (__iter__ data d pairs).1) ++ rest
     ∧ ((__iter__ data d pairs).2 = None ∧ rest = []
        ∨ (__iter__ data d pairs).2 = Some KeyError
          ∧ ∃ g dat rest', rest = (g, dat) :: rest'
                           ∧ _material_subdomains d !! g = None))
  ∧ Forall (fun triple => _material_subdomains d !! triple.1.1 = Some triple.2)
           (__iter__ data d pairs).1
  ∧ ((__iter__ data d pairs).2 = None
     ↔ Forall (fun pair => is_Some (_material_subdomains d !! pair.1)) pairs).
Proof.
  induction pairs as [|[g dat] pairs IH]; simpl.
  { split; [exists []; split; [done|by left]|]. done. }
  destruct (_material_subdomains d !! g) as [m|] eqn:Hg.
  - destruct (__iter__ data d pairs) as [yielded e]. simpl in *.
    destruct IH as ((rest & Hpairs & Hrest) & Hmaterials & Hnone).
    split; [exists rest; split; [by rewrite Hpairs at 1|done]|].
    split; [by constructor|].
    rewrite Forall_cons. simpl. split.
    + intros He. split; [by rewrite Hg|by apply Hnone].
    + intros [_ Hall]. by apply Hnone.
  - simpl. split.
    { exists ((g, dat) :: pairs). split; [done|]. right. split; [done|].
      by exists g, dat, pairs. }
    split; [done|]. split; [done|].
    rewrite Forall_cons. simpl. rewrite Hg. by intros [[] _].
Qed.

Lemma assignment_keeps_materials_witness :
  materials_total d0_with_materials
  ∧ materials_keyed d0_with_materials
  ∧ materials_total
      (self (assign_material_to_grid 11 (substance_on_gb0 Water 1)
               {| self := d0_with_materials; proc := p0 |}).2)
  ∧ materials_keyed
      (self (assign_material_to_grid 11 (substance_on_gb0 Water 1)
               {| self := d0_with_materials; proc := p0 |}).2).
Proof.
  assert (materials_total d0_with_materials) as Htotal.
  { intros g Hg. simpl in Hg.
    apply elem_of_cons in Hg as [->|Hg]; [by eexists|].
    apply list_elem_of_singleton in Hg as ->. by eexists. }
  assert (materials_keyed d0_with_materials) as Hkeyed.
  { apply map_Forall_insert_2; [done|].
    apply map_Forall_insert_2; [done|]. apply map_Forall_empty. }
  split; [exact Htotal|]. split; [exact Hkeyed|].
  apply (assignment_keeps_materials 11 (substance_on_gb0 Water 1)
           {| self := d0_with_materials; proc := p0 |} Htotal Hkeyed).
Defined.

(** ** The composition over the life of a domain *)

Lemma up_to_date_fields (s : state) :
  up_to_date s
  ↔ _substance_names (self s) = substance_names_of (_anticipated_phases (self s))
    ∧ _substance_in_phase (self s) = composition_of (_anticipated_phases (self s)).
Proof.
  rewrite up_to_date_resolved. split.
  - intros Hresolved. split.
    + by apply (f_equal (fun s' => _substance_names (self s'))) in Hresolved.
    + by apply (f_equal (fun s' => _substance_in_phase (self s'))) in Hresolved.
  - intros [Hnames Hin_phase]. destruct s as [[] ?]. unfold resolved. simpl in *.
    by rewrite <- Hnames, <- Hin_phase.
Qed.

(** The hypothesis of C9 is no restriction: every state a domain can be in
    has its composition up to date. *)
Lemma reachable_up_to_date {N : Naming} (s : state) : reachable s → up_to_date s.
Proof.
  induction 1 as [s Hphases Hnames Hin_phase|n dof s _ IH|g sub s _ IH
                  |phases s _ IH|s _ IH].
  - by apply blank_up_to_date.
  - apply up_to_date_fields in IH as [Hnames Hin_phase]. apply up_to_date_fields.
    by destruct (call_cases n dof s) as [(v & _ & ->)|[(_ & ->)|(_ & _ & _ & ->)]].
  - apply up_to_date_fields in IH as [Hnames Hin_phase]. apply up_to_date_fields.
    rewrite assign_unfold. by case_decide.
  - by rewrite add_phase_name_error.
  - rewrite resolve_composition_unfold. simpl.
    apply up_to_date_resolved, resolved_idempotent.
Qed.
